(** * DRP: the SMILES representation learner and its training loops

    A shallow embedding of the notebooks of the repository:
    the early-stopping training loop of [STEP02_Transformer.ipynb], and the
    tokenizer, padding, criterion, decoder and evaluator of the SMILES
    transformer-encoder notebook. *)

From Stdlib Require Import ZArith List Bool Lia Ascii String QArith.
From Stdlib Require Import PrimFloat.
From Stdlib Require Import Floats.
From Stdlib Require Import Permutation.
From Stdlib Require Import DecimalString.
Import ListNotations.
Close Scope Q_scope.

(** ** Python strings

    A [str] is modelled by a Rocq [string], one [ascii] per character: SMILES
    strings and the tokens learnt from them are ASCII text. *)

Module PyStr.
Local Open Scope string_scope.

(** [c.isspace()] for a character below 256: tab, line feed, vertical tab,
    form feed, carriage return, the separators 0x1c to 0x1f, the space, and
    the two Latin-1 spaces 0x85 and 0xa0. *)
Definition isspace (c : ascii) : bool :=
  let n := nat_of_ascii c in
  (((9 <=? n) && (n <=? 13)) || ((28 <=? n) && (n <=? 32))
   || (n =? 133) || (n =? 160))%nat.

(** [s.startswith(old)] *)
Fixpoint startswith (old s : string) : bool :=
  match old with
  | EmptyString => true
  | String a old' =>
      match s with
      | EmptyString => false
      | String c s' => Ascii.eqb a c && startswith old' s'
      end
  end.

(** [old in s] *)
Fixpoint contains (old s : string) : bool :=
  startswith old s ||
  match s with
  | EmptyString => false
  | String _ s' => contains old s'
  end.

(** [s.replace("", new)]: [new] before every character and at the end. *)
Fixpoint interleave (new s : string) : string :=
  match s with
  | EmptyString => new
  | String c s' => new ++ String c (interleave new s')
  end.

(** The left-to-right scan of [s.replace(old, new)] for a non-empty [old]:
    at an occurrence of [old] the scan emits [new] and resumes after the
    occurrence, which is [skip] characters further on; elsewhere it copies
    one character. *)
Fixpoint replace_scan (old new : string) (skip : nat) (s : string) : string :=
  match s with
  | EmptyString => EmptyString
  | String c s' =>
      match skip with
      | S k => replace_scan old new k s'
      | O =>
          if startswith old s
          then new ++ replace_scan old new (String.length old - 1) s'
          else String c (replace_scan old new 0 s')
      end
  end.

(** [s.replace(old, new)]: every non-overlapping occurrence, leftmost
    first. *)
Definition replace (old new s : string) : string :=
  match old with
  | EmptyString => interleave new s
  | _ => replace_scan old new 0 s
  end.

(** The loop of [s.split()]: [word] is the word being read. *)
Fixpoint split_scan (word : string) (s : string) : list string :=
  match s with
  | EmptyString => match word with EmptyString => [] | _ => [word] end
  | String c s' =>
      if isspace c
      then match word with
           | EmptyString => split_scan EmptyString s'
           | _ => word :: split_scan EmptyString s'
           end
      else split_scan (word ++ String c EmptyString) s'
  end.

(** [s.split()]: the maximal runs of non-whitespace characters. *)
Definition split (s : string) : list string := split_scan EmptyString s.

(** ["".join(words)] *)
Definition join (words : list string) : string := String.concat EmptyString words.

(** [c.upper()] on ASCII letters; other characters are unchanged. *)
Definition upper_char (c : ascii) : ascii :=
  let n := nat_of_ascii c in
  if ((97 <=? n) && (n <=? 122))%nat then ascii_of_nat (n - 32) else c.

(** [s.upper()] *)
Fixpoint upper (s : string) : string :=
  match s with
  | EmptyString => EmptyString
  | String c s' => String (upper_char c) (upper s')
  end.

(** The characters of [s] that are not whitespace. *)
Fixpoint remove_spaces (s : string) : string :=
  match s with
  | EmptyString => EmptyString
  | String c s' => if isspace c then remove_spaces s' else String c (remove_spaces s')
  end.

(** [s[n:]] *)
Fixpoint drop (n : nat) (s : string) : string :=
  match n, s with
  | O, _ => s
  | S _, EmptyString => EmptyString
  | S k, String _ s' => drop k s'
  end.

(** The character [c] does not occur in [s]. *)
Fixpoint lacks (c : ascii) (s : string) : bool :=
  match s with
  | EmptyString => true
  | String c' s' => negb (Ascii.eqb c c') && lacks c s'
  end.

(** No character of [s] is whitespace. *)
Fixpoint no_whitespace (s : string) : bool :=
  match s with
  | EmptyString => true
  | String c s' => negb (isspace c) && no_whitespace s'
  end.

End PyStr.

(** ** The vocabulary object of torchtext

    The notebook builds its vocabulary with torchtext's
    [build_vocab_from_iterator] and uses three operations of the resulting
    [Vocab]: [vocab[token]], [vocab.lookup_token(index)] and [len(vocab)].
    A [Vocab] is the list of its tokens in index order, with a default index
    for tokens that are not in the list. *)

Module Vocab.
Local Open Scope string_scope.

Record Vocab := mkVocab {
  itos : list string;
  default_index : Z
}.

(** The index of the first occurrence of [token], counting from [i]. *)
Fixpoint index_from (i : Z) (token : string) (tokens : list string) : option Z :=
  match tokens with
  | [] => None
  | t :: rest => if (t =? token)%string then Some i
                 else index_from (i + 1) token rest
  end.

(** [token in vocab], with its index. *)
Definition stoi (v : Vocab) (token : string) : option Z :=
  index_from 0 token (itos v).

(** [vocab[token]]: the index of the token, the default index for a token
    that is not in the vocabulary. *)
Definition getitem (v : Vocab) (token : string) : Z :=
  match stoi v token with
  | Some i => i
  | None => default_index v
  end.

(** [vocab.lookup_token(index)]: torchtext raises a [RuntimeError] for an
    index outside [0 .. len(vocab) - 1], which is [None] here. *)
Definition lookup_token (v : Vocab) (index : Z) : option string :=
  if (index <? 0)%Z then None else nth_error (itos v) (Z.to_nat index).

(** [len(vocab)] *)
Definition len (v : Vocab) : Z := Z.of_nat (List.length (itos v)).

(** [specials=["<pad>", "<unk>", "<sos>", "<eos>"]] *)
Definition specials : list string := ["<pad>"; "<unk>"; "<sos>"; "<eos>"].

(** [build_vocab_from_iterator(..., specials=specials)] followed by
    [vocab.set_default_index(vocab["<unk>"])].  torchtext puts the specials
    first; [tokens] are the other tokens of the training strings in the
    order torchtext gives them.  The argument [vocab["<unk>"]] is looked up
    before a default index exists, and is found among the specials. *)
Definition build (tokens : list string) : Vocab :=
  let all := (specials ++ tokens)%list in
  mkVocab all (match index_from 0 "<unk>" all with Some i => i | None => 0%Z end).

End Vocab.

(** ** Tokenizer, encoder and padding (cell "Utility functions and
    torchtext vocabulary creation") *)

Module Tokenizer.
Import PyStr Vocab.
Local Open Scope string_scope.

(** [[x] * n] and more generally [l * n] for a Python list: [n] copies of
    [l] one after the other, the empty list when [n <= 0]. *)
Definition list_mul {A : Type} (l : list A) (n : Z) : list A :=
  if (n <=? 0)%Z then [] else List.concat (repeat l (Z.to_nat n)).

Section Notebook.

(** [custom_tokens]: the first field of each line of the file written by
    the pair-encoding notebook, in file order. *)
Variable custom_tokens : list string.

(** The tokens of the vocabulary after the specials. *)
Variable vocab_tokens : list string.

(** [vocab = build_vocab_from_iterator(...)] and
    [vocab.set_default_index(vocab["<unk>"])] *)
Definition vocab : Vocab := Vocab.build vocab_tokens.

(** One iteration of [for token in custom_tokens]. *)
Definition bracket (smiles_string token : string) : string :=
  if contains token smiles_string
  then replace token (" " ++ token ++ " ") smiles_string
  else smiles_string.

(** The loop over [custom_tokens], then [smiles_string.split()]. *)
Definition custom_tokenizer (smiles_string : string) : list string :=
  split (fold_left bracket custom_tokens smiles_string).

(** [[vocab["<sos>"]] + [vocab[token] for token in ...] + [vocab["<eos>"]]] *)
Definition encode_smiles_to_indices (smiles : string) : list Z :=
  ([getitem vocab "<sos>"]
   ++ map (getitem vocab) (custom_tokenizer smiles)
   ++ [getitem vocab "<eos>"])%list.

(** [seq + [vocab["<pad>"]] * (max_len - len(seq))] *)
Definition pad_sequence (seq : list Z) (max_len : Z) : list Z :=
  (seq ++ list_mul [getitem vocab "<pad>"] (max_len - Z.of_nat (List.length seq)))%list.

(** The global [max_len], computed once over the training strings. *)
Variable max_len : Z.

(** The id sequence inside the tensor; [unsqueeze(0)] only adds the batch
    dimension of size 1. *)
Definition smiles_to_padded_tensor (smiles : string) : list Z :=
  pad_sequence (encode_smiles_to_indices smiles) max_len.

End Notebook.

End Tokenizer.

(** ** Exceptions

    The exceptions that the modelled code can raise, and the monad that
    threads them. *)

Module Exn.

Inductive exn :=
| RuntimeError        (* torchtext: index out of range *)
| ValueError          (* torch: batch sizes of input and target differ *)
| ZeroDivisionError.  (* [a / b] with [b == 0] *)

Inductive result (A : Type) :=
| Ok (a : A)
| Raise (e : exn).
Arguments Ok {A} a.
Arguments Raise {A} e.

Definition bind {A B : Type} (r : result A) (k : A -> result B) : result B :=
  match r with
  | Ok a => k a
  | Raise e => Raise e
  end.

End Exn.

Notation "x <- e ;; k" := (Exn.bind e (fun x => k))
  (at level 61, e at next level, right associativity).

(** ** The training criterion (function [train_model])

    [nn.CrossEntropyLoss(ignore_index=...)] with its default mean reduction,
    applied to one row of logits per position and one target id per
    position.  Losses are binary64 floats.  The loss of a single position,
    minus the log-softmax of its row at the target id, is a parameter; the
    reduction adds these up over the positions whose target is not
    [ignore_index] and divides by their number, which torch also accumulates
    as a float. *)

Module Criterion.
Import Exn.

Section CrossEntropyLoss.

Variable position_loss : list float -> Z -> float.
Variable ignore_index : Z.

(** The running sum of the losses and of the weights (1 per position that
    counts). *)
Fixpoint accumulate (input : list (list float)) (target : list Z)
    (acc : float * float) : float * float :=
  match input, target with
  | row :: input', t :: target' =>
      if (t =? ignore_index)%Z then accumulate input' target' acc
      else accumulate input' target'
             ((fst acc + position_loss row t)%float, (snd acc + 1)%float)
  | _, _ => acc
  end.

(** [criterion(input, target)]; with no position that counts the result is
    0/0, a NaN. *)
Definition CrossEntropyLoss (input : list (list float)) (target : list Z)
  : result float :=
  if (List.length input =? List.length target)%nat
  then let acc := accumulate input target (0%float, 0%float) in
       Ok (fst acc / snd acc)%float
  else Raise ValueError.

(** The positions that count: those whose target is not [ignore_index]. *)
Definition counted (input : list (list float)) (target : list Z)
  : list (list float * Z) :=
  filter (fun position => negb (snd position =? ignore_index)%Z)
         (combine input target).

End CrossEntropyLoss.

Section TrainModel.

Variable position_loss : list float -> Z -> float.
Variable vocab_tokens : list string.

(** [criterion = nn.CrossEntropyLoss(ignore_index=vocab["<pad>"])] *)
Definition criterion : list (list float) -> list Z -> result float :=
  CrossEntropyLoss position_loss
    (Vocab.getitem (Tokenizer.vocab vocab_tokens) "<pad>"%string).

End TrainModel.

End Criterion.

(** ** The Levenshtein package *)

Module Levenshtein.

(** [Levenshtein.distance(s, t)]: the least number of insertions, deletions
    and substitutions of single characters that turn [s] into [t]. *)
Fixpoint distance (s t : string) : nat :=
  match s with
  | EmptyString => String.length t
  | String a s' =>
      (fix against (t : string) : nat :=
         match t with
         | EmptyString => S (String.length s')
         | String b t' =>
             Nat.min (Nat.min (S (distance s' t)) (S (against t')))
                     ((if Ascii.eqb a b then 0 else 1) + distance s' t')
         end) t
  end.

End Levenshtein.

(** ** Decoding and evaluation (cell "Evaluation") *)

Module Evaluation.
Import PyStr Vocab Tokenizer Exn.
Local Open Scope string_scope.

(** [a / b] on Python integers.  The quotient is kept exact, as a rational
    number. *)
Definition truediv (a b : Z) : result Q :=
  if (b =? 0)%Z then Raise ZeroDivisionError
  else Ok (inject_Z a / inject_Z b)%Q.

Section Notebook.

Variable custom_tokens : list string.
Variable vocab_tokens : list string.
Variable max_len : Z.

(** [model(input_seq)] followed by [argmax(dim=-1)], [squeeze()] and
    [tolist()]: the most likely id at each position. *)
Variable model_argmax : list Z -> list Z.

(** The loop [for token_idx in ...], with its [break]. *)
Fixpoint decode_loop (output_tokens : list Z) (decoded_tokens : list string)
  : result (list string) :=
  match output_tokens with
  | [] => Ok decoded_tokens
  | token_idx :: rest =>
      match lookup_token (vocab vocab_tokens) token_idx with
      | None => Raise RuntimeError
      | Some token =>
          if (token =? "<eos>")%string then Ok decoded_tokens
          else decode_loop rest (decoded_tokens ++ [token])%list
      end
  end.

(** [.replace("<pad>", "").replace("<sos>", "").replace("<eos>", "")] *)
Definition strip_specials (s : string) : string :=
  replace "<eos>" "" (replace "<sos>" "" (replace "<pad>" "" s)).

(** [decode_sequence] from [output_tokens] on. *)
Definition decode_output (output_tokens : list Z) : result string :=
  decoded_tokens <- decode_loop output_tokens [] ;;
  Ok (strip_specials (join decoded_tokens)).

(** [decode_sequence(input_seq)] *)
Definition decode_sequence (input_seq : list Z) : result string :=
  decode_output (model_argmax input_seq).

(** The four counters of [evaluate_reconstruction]. *)
Record counters := mkCounters {
  correct_count : Z;
  total_levenshtein_distance : Z;
  total_mismatched_smiles_length : Z;
  mismatched_count : Z
}.

(** The body of [for smiles in smiles_list], given the decoded string.
    [print_mismatches] only prints. *)
Definition count (c : counters) (smiles decoded_smiles : string) : counters :=
  if (smiles =? decoded_smiles)%string
  then mkCounters (correct_count c + 1) (total_levenshtein_distance c)
         (total_mismatched_smiles_length c) (mismatched_count c)
  else mkCounters (correct_count c)
         (total_levenshtein_distance c
          + Z.of_nat (Levenshtein.distance (upper smiles) decoded_smiles))
         (total_mismatched_smiles_length c + Z.of_nat (String.length smiles))
         (mismatched_count c + 1).

(** The loop [for smiles in smiles_list]. *)
Fixpoint evaluate_loop (smiles_list : list string) (c : counters) : result counters :=
  match smiles_list with
  | [] => Ok c
  | smiles :: rest =>
      decoded_smiles <-
        decode_sequence (smiles_to_padded_tensor custom_tokens vocab_tokens max_len smiles) ;;
      evaluate_loop rest (count c smiles decoded_smiles)
  end.

(** [evaluate_reconstruction(smiles_list, print_mismatches)]: accuracy,
    average Levenshtein distance, average length of the mismatched
    strings. *)
Definition evaluate_reconstruction (smiles_list : list string)
    (print_mismatches : bool) : result (Q * Q * Q) :=
  c <- evaluate_loop smiles_list (mkCounters 0 0 0 0) ;;
  let total_count := Z.of_nat (List.length smiles_list) in
  ratio <- truediv (correct_count c) total_count ;;
  let accuracy := (ratio * 100)%Q in
  if (mismatched_count c >? 0)%Z
  then average_levenshtein_distance <-
         truediv (total_levenshtein_distance c) (mismatched_count c) ;;
       average_mismatched_smiles_length <-
         truediv (total_mismatched_smiles_length c) (mismatched_count c) ;;
       Ok (accuracy, average_levenshtein_distance, average_mismatched_smiles_length)
  else Ok (accuracy, 0%Q, 0%Q).

(** [decoded] lists the decoded strings of [smiles_list]: every decoding
    returns. *)
Definition decodes_to (smiles_list decoded : list string) : Prop :=
  Forall2 (fun smiles d =>
             decode_sequence
               (smiles_to_padded_tensor custom_tokens vocab_tokens max_len smiles)
             = Ok d)
          smiles_list decoded.

End Notebook.

(** The tokens before the first ["<eos>"]. *)
Fixpoint before_eos (tokens : list string) : list string :=
  match tokens with
  | [] => []
  | token :: rest =>
      if (token =? "<eos>")%string then [] else token :: before_eos rest
  end.

(** The tokens that are neither ["<pad>"] nor ["<sos>"]. *)
Definition not_pad_sos (token : string) : bool :=
  negb (token =? "<pad>")%string && negb (token =? "<sos>")%string.

(** A token that is one of the four specials or has no ["<"] in it. *)
Definition block (token : string) : Prop :=
  In token specials \/ lacks "<" token = true.

(** An original string and its decoding agree. *)
Definition exact_match (pair : string * string) : bool :=
  (fst pair =? snd pair)%string.

(** An original string and its decoding differ. *)
Definition mismatch (pair : string * string) : bool := negb (exact_match pair).

(** The sum of [f] over a list of pairs. *)
Definition total (f : string * string -> Z) (pairs : list (string * string)) : Z :=
  fold_right Z.add 0%Z (map f pairs).

(** The edit distance that the evaluator adds for a mismatch. *)
Definition edit_distance (pair : string * string) : Z :=
  Z.of_nat (Levenshtein.distance (upper (fst pair)) (snd pair)).

(** The length that the evaluator adds for a mismatch. *)
Definition original_length (pair : string * string) : Z :=
  Z.of_nat (String.length (fst pair)).

End Evaluation.

(** ** The subword vocabulary builder (pair-encoding notebook)

    The notebook calls [learn_SPE] of the SmilesPE package on the corpus;
    the function itself is not part of the repository's sources. *)

Module SPE.
Local Open Scope string_scope.

(** Modelled from the spec: the initial segmentation of [learn_SPE], which
    is missing from the sources.  "Initialize each string as a sequence of
    atomic symbols (single characters, with multi-character atom symbols
    treated as one unit)": the units taken here are a bracket atom, from
    ["["] to the next ["]"], and the two-letter halogens [Cl] and [Br];
    every other character is a symbol of its own.  [open] is the bracket atom
    being read. *)
Fixpoint atomic_symbols_from (open : option string) (smiles : string) : list string :=
  match smiles with
  | EmptyString => match open with Some atom => [atom] | None => [] end
  | String c rest =>
      match open with
      | Some atom =>
          if Ascii.eqb c "]"
          then (atom ++ String c "") :: atomic_symbols_from None rest
          else atomic_symbols_from (Some (atom ++ String c "")) rest
      | None =>
          if Ascii.eqb c "[" then atomic_symbols_from (Some "[") rest
          else
            match rest with
            | String d rest' =>
                if (Ascii.eqb c "C" && Ascii.eqb d "l")
                   || (Ascii.eqb c "B" && Ascii.eqb d "r")
                then String c (String d "") :: atomic_symbols_from None rest'
                else String c "" :: atomic_symbols_from None rest
            | EmptyString => [String c ""]
            end
      end
  end.

(** Modelled from the spec: the atomic symbols of a whole string. *)
Definition atomic_symbols (smiles : string) : list string :=
  atomic_symbols_from None smiles.

(** Modelled from the spec: an "adjacent symbol-pair". *)
Definition pair : Type := string * string.

(** Modelled from the spec: a token's "identity = its exact character
    content", for both tokens of a pair. *)
Definition pair_eqb (p q : pair) : bool :=
  (fst p =? fst q)%string && (snd p =? snd q)%string.

(** Modelled from the spec: the pair-frequency table of [learn_SPE].
    "Count frequency of every adjacent symbol-pair across the whole
    corpus": every adjacent pair of every string, in corpus order, and the
    number of times a pair occurs among them. *)
Fixpoint adjacent_pairs (symbols : list string) : list pair :=
  match symbols with
  | a :: rest =>
      match rest with
      | b :: _ => (a, b) :: adjacent_pairs rest
      | [] => []
      end
  | [] => []
  end.

(** Modelled from the spec: the adjacent pairs "across the whole corpus". *)
Definition corpus_pairs (corpus : list (list string)) : list pair :=
  flat_map adjacent_pairs corpus.

(** Modelled from the spec: the "occurrence count across the corpus" of a
    pair. *)
Definition frequency (corpus : list (list string)) (p : pair) : nat :=
  List.length (filter (pair_eqb p) (corpus_pairs corpus)).

(** Modelled from the spec: the merge step of [learn_SPE].  "Merge all
    occurrences of that pair into a new token", left to right. *)
Fixpoint merge_pair (p : pair) (symbols : list string) : list string :=
  match symbols with
  | a :: rest =>
      match rest with
      | b :: rest' =>
          if pair_eqb (a, b) p then (a ++ b) :: merge_pair p rest'
          else a :: merge_pair p rest
      | [] => [a]
      end
  | [] => []
  end.

Section Builder.

(** Modelled from the spec: the selection step of [learn_SPE].  "Select the
    pair with the highest frequency"; the spec does not say which of several
    pairs of the same highest frequency is taken.  [prefer p q] decides
    whether [p] replaces the pair [q] met earlier in the corpus when both
    have the highest frequency so far. *)
Variable prefer : pair -> pair -> bool.

(** Modelled from the spec: "the pair with the highest frequency", with
    that frequency; none when the corpus has no pair. *)
Definition most_frequent (corpus : list (list string)) : option (pair * nat) :=
  fold_left
    (fun best p =>
       let f := frequency corpus p in
       match best with
       | None => Some (p, f)
       | Some (q, fq) =>
           if (fq <? f)%nat || ((fq =? f)%nat && prefer p q)
           then Some (p, f) else best
       end)
    (corpus_pairs corpus) None.

(** Modelled from the spec: the loop of [learn_SPE].  "If its frequency is
    below the threshold, stop; otherwise merge all occurrences of that pair
    into a new token, add it to the vocabulary with its rank, and repeat
    until the target max size is reached or no pair meets the threshold."
    The result is the ranked list of tokens, each with the frequency of the
    pair it was merged from. *)
Fixpoint learn (max_size min_frequency : nat) (corpus : list (list string))
  : list (string * nat) :=
  match max_size with
  | O => []
  | S max_size' =>
      match most_frequent corpus with
      | None => []
      | Some (p, f) =>
          if (f <? min_frequency)%nat then []
          else (fst p ++ snd p, f)
               :: learn max_size' min_frequency (map (merge_pair p) corpus)
      end
  end.


(** Modelled from the spec: the augmentation of [learn_SPE].  The
    "augmentation factor controls how many random atom-order-equivalent
    rewrites of each input are added to enrich pair statistics";
    [rewrites smiles] are the rewrites that the random generator yields for
    a string, of which the first [augmentation] are added. *)
Variable rewrites : string -> list string.

(** Modelled from the spec: the corpus with the rewrites "added". *)
Definition augment (augmentation : nat) (smiles_list : list string) : list string :=
  flat_map (fun smiles => smiles :: firstn augmentation (rewrites smiles)) smiles_list.

(** Modelled from the spec: [learn_SPE], the vocabulary builder.  "Given a
    list of raw SMILES strings, a target maximum vocabulary size, a minimum
    pair frequency threshold, and an augmentation factor, produce an ordered
    list" of merged tokens, "a ranked token list in merge order". *)
Definition learn_SPE (smiles_list : list string) (max_size min_frequency
    augmentation : nat) : list string :=
  map fst (learn max_size min_frequency
             (map atomic_symbols (augment augmentation smiles_list))).

End Builder.

(** Modelled from the spec: the corpus of its concrete scenario. *)
Definition scenario : list string := ["CCO"; "CCN"; "CCOCC"].

End SPE.

(** ** The early-stopping training loop ([STEP02_Transformer.ipynb])

    Losses are Python floats, that is IEEE 754 binary64 numbers: they are
    modelled by Rocq's primitive floats, which are the same numbers with the
    same operations.  The validation loss of an epoch depends on the model
    and the data; the loop below receives the sequence of per-epoch
    validation losses, one per iteration of [for epoch in range(epochs)]. *)

Module EarlyStopping.

(** The variables the loop updates.  [checkpoint] is the epoch (0-based, as
    [epoch] in the source) of the last [torch.save] inside the loop. *)
Record state := mkState {
  best_val_loss : float;
  patience_counter : Z;
  checkpoint : option nat
}.

(** [best_val_loss = float("inf")], [patience_counter = 0]. *)
Definition init : state := mkState infinity 0 None.

(** [epoch_val_loss < best_val_loss - min_delta] *)
Definition improves (min_delta : float) (st : state) (epoch_val_loss : float) : bool :=
  (epoch_val_loss <? best_val_loss st - min_delta)%float.

(** The [if ... else ...] under the comment [# Early stopping]. *)
Definition update (min_delta : float) (st : state) (epoch : nat)
    (epoch_val_loss : float) : state :=
  if improves min_delta st epoch_val_loss
  then mkState epoch_val_loss 0 (Some epoch)
  else mkState (best_val_loss st) (patience_counter st + 1) (checkpoint st).

(** [if patience_counter >= patience: break] *)
Definition triggered (patience : Z) (st : state) : bool :=
  (patience_counter st >=? patience)%Z.

(** How the loop ended: by [break] in some epoch, or with the epoch budget
    exhausted. *)
Inductive outcome :=
| EarlyStopped (epoch : nat)
| BudgetExhausted.

(** [for epoch in range(epochs)], from epoch number [epoch] on, over the
    validation losses of the remaining epochs. *)
Fixpoint loop (patience : Z) (min_delta : float) (epoch : nat) (st : state)
    (val_losses : list float) : state * outcome :=
  match val_losses with
  | [] => (st, BudgetExhausted)
  | epoch_val_loss :: rest =>
      let st' := update min_delta st epoch epoch_val_loss in
      if triggered patience st' then (st', EarlyStopped epoch)
      else loop patience min_delta (S epoch) st' rest
  end.

(** The whole loop, from [epoch = 0] and the initial variables. *)
Definition train (patience : Z) (min_delta : float) (val_losses : list float)
  : state * outcome :=
  loop patience min_delta 0 init val_losses.

End EarlyStopping.

(** * Further code of the notebooks *)

(** ** The state of the early-stopping loop between epochs *)

Module EarlyStoppingState.
Import EarlyStopping.

(** What the loop keeps true between epochs: the counter is the number of
    epochs since the last checkpoint (since the start when there is none),
    and the best loss is the loss of the checkpointed epoch (infinity when
    there is none).  [done] are the losses of the epochs already run. *)
Definition consistent (done : list float) (st : state) : Prop :=
  match checkpoint st with
  | Some c =>
      (Z.of_nat c + patience_counter st + 1 = Z.of_nat (List.length done))%Z /\
      nth_error done c = Some (best_val_loss st)
  | None =>
      patience_counter st = Z.of_nat (List.length done) /\
      best_val_loss st = infinity
  end.

End EarlyStoppingState.

(** ** More exceptions

    The exceptions that the code below raises, with the monad-free result
    type that carries them. *)

Module Raising.

Inductive exception :=
| IndexError          (* [l[i]] outside the list *)
| TypeError           (* [len(None)] *)
| AssertionError      (* a failed [assert] *)
| ZeroDivisionError.  (* [a // 0] *)

Inductive result (A : Type) :=
| Return (a : A)
| Throw (e : exception).
Arguments Return {A} a.
Arguments Throw {A} e.

End Raising.

(** ** Loading the custom tokens and fixing the padded length (cells "Load
    the data" and "Utility functions") *)

Module Corpus.
Import PyStr Vocab Tokenizer.
Local Open Scope string_scope.

(** [s.lstrip()] *)
Fixpoint lstrip (s : string) : string :=
  match s with
  | EmptyString => EmptyString
  | String c s' => if isspace c then lstrip s' else s
  end.

(** [s.rstrip()] *)
Fixpoint rstrip (s : string) : string :=
  match s with
  | EmptyString => EmptyString
  | String c s' =>
      match rstrip s' with
      | EmptyString => if isspace c then EmptyString else String c EmptyString
      | r => String c r
      end
  end.

(** [s.strip()] *)
Definition strip (s : string) : string := rstrip (lstrip s).

(** [custom_tokens = [line.strip().split()[0] for line in f]]: the first
    field of every line of the file, an [IndexError] at the first line
    without a field. *)
Fixpoint load_custom_tokens (lines : list string) : Raising.result (list string) :=
  match lines with
  | [] => Raising.Return []
  | line :: rest =>
      match split (strip line) with
      | [] => Raising.Throw Raising.IndexError
      | token :: _ =>
          match load_custom_tokens rest with
          | Raising.Return tokens => Raising.Return (token :: tokens)
          | Raising.Throw e => Raising.Throw e
          end
      end
  end.

(** A line with nothing but whitespace. *)
Definition blank (line : string) : Prop := remove_spaces line = "".

Section Notebook.

Variable custom_tokens : list string.
Variable vocab_tokens : list string.

(** [max_len = max(len(encode_smiles_to_indices(smile)) for smile in
    smiles_training)]; [max] of nothing raises a [ValueError]. *)
Definition max_len (smiles_training : list string) : Exn.result Z :=
  match map (fun smile =>
               Z.of_nat (List.length
                           (encode_smiles_to_indices custom_tokens vocab_tokens smile)))
            smiles_training with
  | [] => Exn.Raise Exn.ValueError
  | n :: lengths => Exn.Ok (fold_left Z.max lengths n)
  end.

End Notebook.

End Corpus.

(** ** Sizes of the gene-expression models ([STEP02_Transformer.ipynb],
    [STEP02_Autoencoder.ipynb])

    The constructors compute the sizes of the layers they create from their
    arguments.  The layers themselves belong to torch; what is modelled is
    the arithmetic on the sizes. *)

Module Models.
Import Raising.

(** [a // b] on Python integers: the floor of the quotient. *)
Definition floordiv (a b : Z) : result Z :=
  if (b =? 0)%Z then Throw ZeroDivisionError else Return (a / b)%Z.

(** The head size that [MultiHeadAttention.__init__] computes and checks:
    [self.head_dim = embed_dim // num_heads] and
    [assert self.head_dim * num_heads == self.embed_dim]. *)
Definition attention_head_dim (embed_dim num_heads : Z) : result Z :=
  match floordiv embed_dim num_heads with
  | Throw e => Throw e
  | Return head_dim =>
      if (head_dim * num_heads =? embed_dim)%Z then Return head_dim
      else Throw AssertionError
  end.

(** [l[i]] for a Python list and an index that may be negative. *)
Definition getitem {A : Type} (l : list A) (i : Z) : result A :=
  let n := Z.of_nat (List.length l) in
  let j := if (i <? 0)%Z then (i + n)%Z else i in
  if (j <? 0)%Z then Throw IndexError
  else match nth_error l (Z.to_nat j) with
       | Some x => Return x
       | None => Throw IndexError
       end.

(** The loop [for i in range(len(dims) - 1)] of [Autoencoder.__init__]:
    the sizes [(dims[i], dims[i + 1])] of the [nn.Linear] layers, each of
    them followed by a [nn.ReLU].  The indices stay inside [dims]. *)
Definition linear_sizes (dims : list Z) : list (Z * Z) :=
  map (fun i => (nth i dims 0%Z, nth (i + 1) dims 0%Z))
      (seq 0 (List.length dims - 1)).

(** The sizes (in_features, out_features) of the [nn.Linear] layers that
    [Autoencoder.__init__] creates, in the order in which [forward] applies
    them: the encoder, [self.latent], the decoder, [self.output_layer]. *)
Definition autoencoder_sizes (input_dim : Z) (hidden_dims : list Z) (latent_dim : Z)
  : result (list (Z * Z)) :=
  let encoder := linear_sizes ([input_dim] ++ hidden_dims) in
  match getitem hidden_dims (-1) with
  | Throw e => Throw e
  | Return last_hidden =>
      let latent := (last_hidden, latent_dim) in
      let decoder := linear_sizes ([latent_dim] ++ rev hidden_dims) in
      match getitem hidden_dims 0 with
      | Throw e => Throw e
      | Return first_hidden =>
          let output_layer := (first_hidden, input_dim) in
          Return (encoder ++ [latent] ++ decoder ++ [output_layer])
      end
  end.

(** The width of a batch after a chain of linear layers, for a batch of
    width [width]; torch refuses a layer whose in_features differ from the
    width it receives ([None]).  The [nn.ReLU] layers in between keep the
    width. *)
Fixpoint width_after (layers : list (Z * Z)) (width : Z) : option Z :=
  match layers with
  | [] => Some width
  | (in_features, out_features) :: rest =>
      if (in_features =? width)%Z then width_after rest out_features else None
  end.

End Models.

(** ** Python dictionaries

    A [dict] with integer keys, kept as the list of its items in insertion
    order. *)

Module PyDict.

Section Values.

Variable V : Type.

(** [d[key] = value] *)
Fixpoint dict_set (d : list (Z * V)) (key : Z) (value : V) : list (Z * V) :=
  match d with
  | [] => [(key, value)]
  | (k, v) :: rest =>
      if (k =? key)%Z then (k, value) :: rest else (k, v) :: dict_set rest key value
  end.

(** [d.get(key)]; [d[key]] raises a [KeyError] where this is [None]. *)
Fixpoint dict_get (d : list (Z * V)) (key : Z) : option V :=
  match d with
  | [] => None
  | (k, v) :: rest => if (k =? key)%Z then Some v else dict_get rest key
  end.

(** [dict(items)] and [{key: value for key, value in items}]: the items
    are set one after the other. *)
Definition dict_of_items (items : list (Z * V)) : list (Z * V) :=
  fold_left (fun d item => dict_set d (fst item) (snd item)) items [].

End Values.

Arguments dict_set {V} d key value.
Arguments dict_get {V} d key.
Arguments dict_of_items {V} items.

End PyDict.

(** ** Choosing the genes of the scatter plot ([STEP02_Eval.ipynb]) *)

Module ScatterPlot.
Import Raising.

Section Colors.

(** A colour, and [cm.Dark2(i)] for an index [i]. *)
Variable color : Type.
Variable Dark2 : nat -> color.

(** [gene_idx in gene_indices] *)
Definition contains (gene_indices : list Z) (gene_idx : Z) : bool :=
  existsb (Z.eqb gene_idx) gene_indices.

(** The loop [for gene_idx in highlight_gene_indices], under
    [if highlight_gene_indices is not None].  [chosen] is the result of
    [np.random.choice]. *)
Definition add_highlights (chosen : list Z) (highlight_gene_indices : option (list Z))
  : list Z :=
  match highlight_gene_indices with
  | None => chosen
  | Some highlights =>
      fold_left (fun gene_indices gene_idx =>
                   if contains gene_indices gene_idx then gene_indices
                   else gene_indices ++ [gene_idx])
                highlights chosen
  end.

(** [highlight_colors = cm.Dark2(range(len(highlight_gene_indices)))] and
    [highlighted_gene_colors = {gene: color for gene, color in zip(...)}];
    [len(None)] raises a [TypeError]. *)
Definition highlighted_gene_colors (highlight_gene_indices : option (list Z))
  : result (list (Z * color)) :=
  match highlight_gene_indices with
  | None => Throw TypeError
  | Some highlights =>
      let highlight_colors := map Dark2 (seq 0 (List.length highlights)) in
      Return (PyDict.dict_of_items (combine highlights highlight_colors))
  end.

(** The part of [scatter_plot] between the forward passes and the drawing:
    the genes to plot and the colours of the highlighted ones. *)
Definition plan (chosen : list Z) (highlight_gene_indices : option (list Z))
  : result (list Z * list (Z * color)) :=
  let gene_indices := add_highlights chosen highlight_gene_indices in
  match highlighted_gene_colors highlight_gene_indices with
  | Throw e => Throw e
  | Return colors => Return (gene_indices, colors)
  end.

End Colors.

End ScatterPlot.

(** ** Filtering the response table ([STEP00_DataProcessor.ipynb])

    The tables are modelled by the lists of their rows, in row order, with
    the columns that the notebook reads; the expression table [ccl_df] by the
    list of its columns, each with its name. *)

Module DataProcessor.
Import PyDict.
Local Open Scope string_scope.

(** A row of [ic50_df]. *)
Record ic50_row := mkIc50 {
  COSMIC_ID : Z;
  DRUG_ID : Z;
  LN_IC50 : float
}.

(** A row of [smiles_df] (the file ALL_SMILES.csv). *)
Record smiles_row := mkSmiles {
  Drug_Id : Z;
  smiles : string
}.

(** An element of [ccl_values]: the values of a column, or the string
    ["NA"]. *)
Inductive entry :=
| Values (values : list float)
| NA.

(** [item == "NA"] for an element of [ccl_values]. *)
Definition is_NA (item : entry) : bool :=
  match item with NA => true | Values _ => false end.

(** [str(n)] for an integer. *)
Definition str (n : Z) : string := NilEmpty.string_of_int (Z.to_int n).

(** [series.unique()]: the values in the order of their first
    occurrence. *)
Definition unique (values : list Z) : list Z :=
  fold_left (fun seen v => if existsb (Z.eqb v) seen then seen else (seen ++ [v])%list)
            values [].

(** [ccl_df[name]] when [name in ccl_df.columns]. *)
Fixpoint column (ccl_df : list (string * list float)) (name : string)
  : option (list float) :=
  match ccl_df with
  | [] => None
  | (n, values) :: rest => if (n =? name)%string then Some values else column rest name
  end.

(** [ids.isin(na_ids)] for one id. *)
Definition isin (id : Z) (na_ids : list Z) : bool := existsb (Z.eqb id) na_ids.

Section Tables.

Variable ic50_df : list ic50_row.
Variable ccl_df : list (string * list float).
Variable smiles_df : list smiles_row.

(** [ccl = ic50_df["COSMIC_ID"].unique()] and
    [drugs = ic50_df["DRUG_ID"].unique()] *)
Definition ccl : list Z := unique (map COSMIC_ID ic50_df).
Definition drugs : list Z := unique (map DRUG_ID ic50_df).

(** The body of [for cosmic_id in ccl], on [(ccl_values, na_cosmic_ids)]. *)
Definition cell_line_step (acc : list entry * list Z) (cosmic_id : Z)
  : list entry * list Z :=
  let id := "DATA." ++ str cosmic_id in
  match column ccl_df id with
  | Some values => (fst acc ++ [Values values], snd acc)%list
  | None => (fst acc ++ [NA], snd acc ++ [cosmic_id])%list
  end.

Definition cell_lines : list entry * list Z := fold_left cell_line_step ccl ([], []).
Definition ccl_values : list entry := fst cell_lines.
Definition na_cosmic_ids : list Z := snd cell_lines.

(** [na_count = sum(1 for item in ccl_values if item == "NA")] *)
Definition na_count : nat := List.length (filter is_NA ccl_values).

(** The rows of [smiles_df] with [smiles_df["Drug Id"] == drug]. *)
Definition matching (drug : Z) : list smiles_row :=
  filter (fun row => (Drug_Id row =? drug)%Z) smiles_df.

(** The body of [for drug in drugs], on [(drugs_values, na_drug_ids)]. *)
Definition drug_step (acc : list string * list Z) (drug : Z) : list string * list Z :=
  match matching drug with
  | row :: _ => (fst acc ++ [smiles row], snd acc)%list
  | [] => (fst acc ++ ["NA"], snd acc ++ [drug])%list
  end.

Definition drug_lookup : list string * list Z := fold_left drug_step drugs ([], []).
Definition drugs_values : list string := fst drug_lookup.
Definition na_drug_ids : list Z := snd drug_lookup.

(** [ic50_df[~ic50_df["COSMIC_ID"].isin(na_cosmic_ids)]], then the same
    with [DRUG_ID] and [na_drug_ids]. *)
Definition ic50_df_filtered : list ic50_row :=
  filter (fun row => negb (isin (DRUG_ID row) na_drug_ids))
         (filter (fun row => negb (isin (COSMIC_ID row) na_cosmic_ids)) ic50_df).

(** The element of [ccl_values] for a cell line. *)
Definition entry_of (cosmic_id : Z) : entry :=
  match column ccl_df ("DATA." ++ str cosmic_id) with
  | Some values => Values values
  | None => NA
  end.

(** The element of [drugs_values] for a drug. *)
Definition smiles_of (drug : Z) : string :=
  match matching drug with
  | row :: _ => smiles row
  | [] => "NA"
  end.

(** [ccl_dict = dict(zip(ccl, ccl_values))] and
    [smiles_dict = dict(zip(drugs, drugs_values))] *)
Definition ccl_dict : list (Z * entry) := dict_of_items (combine ccl ccl_values).
Definition smiles_dict : list (Z * string) := dict_of_items (combine drugs drugs_values).

End Tables.

End DataProcessor.

(** ** The training function of the SMILES model (function [train_model])

    The model and the optimizer belong to torch.  They are parameters here:
    the weights (with the state of the optimizer), the forward pass in
    training and in evaluation mode, and the effect of [loss.backward()]
    followed by [optimizer.step()] for one sample. *)

Module Training.
Import Exn Vocab Tokenizer Criterion.

(** [float(n)] for the length of a list (a length is below 2^63). *)
Definition float_of_nat (n : nat) : float :=
  PrimFloat.of_uint63 (Uint63.of_Z (Z.of_nat n)).

(** [a / len(l)] for a float (or the integer 0) and a length. *)
Definition truediv_len (a : float) (n : nat) : result float :=
  if (n =? 0)%nat then Raise ZeroDivisionError else Ok (a / float_of_nat n)%float.

Section TrainModel.

Variable custom_tokens : list string.
Variable vocab_tokens : list string.
Variable max_len : Z.
Variable position_loss : list float -> Z -> float.

Variable weights : Type.
Variable forward_train : weights -> list Z -> list (list float).
Variable forward_eval : weights -> list Z -> list (list float).
Variable optimizer_step : weights -> list Z -> weights.

(** The loop [for smiles in train_smiles_list] on the weights and
    [epoch_train_loss]. *)
Fixpoint train_pass (w : weights) (train_smiles_list : list string)
    (epoch_train_loss : float) : result (weights * float) :=
  match train_smiles_list with
  | [] => Ok (w, epoch_train_loss)
  | smiles :: rest =>
      let input_seq := smiles_to_padded_tensor custom_tokens vocab_tokens max_len smiles in
      loss <- criterion position_loss vocab_tokens (forward_train w input_seq) input_seq ;;
      train_pass (optimizer_step w input_seq) rest (epoch_train_loss + loss)%float
  end.

(** The loop [for smiles in val_smiles_list] on [epoch_val_loss]. *)
Fixpoint val_pass (w : weights) (val_smiles_list : list string)
    (epoch_val_loss : float) : result float :=
  match val_smiles_list with
  | [] => Ok epoch_val_loss
  | smiles :: rest =>
      let input_seq := smiles_to_padded_tensor custom_tokens vocab_tokens max_len smiles in
      loss <- criterion position_loss vocab_tokens (forward_eval w input_seq) input_seq ;;
      val_pass w rest (epoch_val_loss + loss)%float
  end.

(** The body of [for epoch in range(num_epochs)]: the new weights and the
    line that is printed, (epoch + 1, training loss, validation loss). *)
Definition epoch_body (train_smiles_list val_smiles_list : list string)
    (w : weights) (epoch : Z) : result (weights * (Z * float * float)) :=
  trained <- train_pass w train_smiles_list 0%float ;;
  epoch_val_loss <- val_pass (fst trained) val_smiles_list 0%float ;;
  training_loss <- truediv_len (snd trained) (List.length train_smiles_list) ;;
  validation_loss <- truediv_len epoch_val_loss (List.length val_smiles_list) ;;
  Ok (fst trained, ((epoch + 1)%Z, training_loss, validation_loss)).

(** [for epoch in range(num_epochs)], with [remaining] epochs to go. *)
Fixpoint epochs_from (train_smiles_list val_smiles_list : list string)
    (remaining : nat) (epoch : Z) (w : weights) (printed : list (Z * float * float))
  : result (weights * list (Z * float * float)) :=
  match remaining with
  | O => Ok (w, printed)
  | S remaining' =>
      step <- epoch_body train_smiles_list val_smiles_list w epoch ;;
      epochs_from train_smiles_list val_smiles_list remaining' (epoch + 1)%Z
        (fst step) (printed ++ [snd step])%list
  end.

(** [train_model(model, train_smiles_list, val_smiles_list, num_epochs)]:
    the weights at the end and the lines printed. *)
Definition train_model (w : weights) (train_smiles_list val_smiles_list : list string)
    (num_epochs : Z) : result (weights * list (Z * float * float)) :=
  epochs_from train_smiles_list val_smiles_list (Z.to_nat num_epochs) 0 w [].

(** The weights after the steps for a list of training strings. *)
Definition steps (w : weights) (train_smiles_list : list string) : weights :=
  fold_left (fun w smiles =>
               optimizer_step w
                 (smiles_to_padded_tensor custom_tokens vocab_tokens max_len smiles))
            train_smiles_list w.

End TrainModel.

End Training.

(** * Properties *)

(** ** Strings *)

Module PyStrFacts.
Import PyStr.
Local Open Scope string_scope.

Example replace_brackets : replace "C" " C " "CCO" = " C  C O".
Proof. reflexivity. Qed.

Example replace_leftmost_first : replace "aa" "b" "aaaaa" = "bba".
Proof. reflexivity. Qed.

Example replace_empty : replace "" "-" "abc" = "-a-b-c-".
Proof. reflexivity. Qed.

Example split_runs : split "  a bc  d " = ["a"; "bc"; "d"].
Proof. reflexivity. Qed.

Lemma append_empty_r (s : string) : s ++ "" = s.
Proof. induction s as [|c s IH]; simpl; [reflexivity | now rewrite IH]. Qed.

Lemma append_assoc (a b c : string) : (a ++ b) ++ c = a ++ (b ++ c).
Proof. induction a as [|x a IH]; simpl; [reflexivity | now rewrite IH]. Qed.

Lemma drop_empty n : drop n "" = "".
Proof. now destruct n. Qed.

Lemma drop_append (a b : string) : drop (String.length a) (a ++ b) = b.
Proof. induction a as [|x a IH]; simpl; [reflexivity | exact IH]. Qed.

Lemma startswith_split (old s : string) :
  startswith old s = true -> exists rest, s = old ++ rest.
Proof.
  revert s.
  induction old as [|a old IH]; intros s H.
  - now exists s.
  - destruct s as [|c s]; simpl in H; [discriminate|].
    apply andb_prop in H as [Hc H]. apply Ascii.eqb_eq in Hc as ->.
    destruct (IH s H) as [rest ->]. now exists rest.
Qed.

Lemma join_cons (w : string) (ws : list string) : join (w :: ws) = w ++ join ws.
Proof.
  unfold join. destruct ws as [|w' ws]; simpl.
  - now rewrite append_empty_r.
  - reflexivity.
Qed.

Lemma join_app (xs ys : list string) : join (xs ++ ys) = join xs ++ join ys.
Proof.
  induction xs as [|x xs IH].
  - reflexivity.
  - change ((x :: xs) ++ ys)%list with (x :: (xs ++ ys)%list).
    now rewrite !join_cons, IH, append_assoc.
Qed.

Lemma remove_spaces_append (a b : string) :
  remove_spaces (a ++ b) = remove_spaces a ++ remove_spaces b.
Proof.
  induction a as [|c a IH]; simpl; [reflexivity|].
  destruct (isspace c); simpl; now rewrite IH.
Qed.

Lemma remove_spaces_id (s : string) : no_whitespace s = true -> remove_spaces s = s.
Proof.
  induction s as [|c s IH]; simpl; [reflexivity|].
  destruct (isspace c); simpl; [discriminate|].
  intros H. now rewrite IH.
Qed.

(** [split] drops whitespace and nothing else. *)
Lemma join_split_scan (s : string) : forall word,
  join (split_scan word s) = word ++ remove_spaces s.
Proof.
  induction s as [|c s IH]; intros word; simpl.
  - destruct word; [reflexivity|].
    unfold join; simpl. now rewrite append_empty_r.
  - destruct (isspace c).
    + destruct word as [|a word]; [exact (IH "")|].
      now rewrite join_cons, (IH "").
    + rewrite IH, append_assoc. reflexivity.
Qed.

Lemma join_split (s : string) : join (split s) = remove_spaces s.
Proof. unfold split. now rewrite join_split_scan. Qed.

(** A replacement that only adds whitespace is invisible once whitespace is
    removed. *)
Lemma remove_spaces_replace_scan (a : ascii) (old' new : string) :
  remove_spaces new = remove_spaces (String a old') ->
  forall s skip,
    remove_spaces (replace_scan (String a old') new skip s)
    = remove_spaces (drop skip s).
Proof.
  intros Hnew.
  induction s as [|c s IH]; intros skip.
  - now rewrite drop_empty.
  - destruct skip as [|k]; [|exact (IH k)].
    cbn [replace_scan drop].
    destruct (startswith (String a old') (String c s)) eqn:Hpre.
    + rewrite remove_spaces_append, IH, Hnew.
      destruct (startswith_split _ _ Hpre) as [rest Hrest].
      simpl in Hrest. injection Hrest as Hc Hs. subst c s.
      cbn [String.length]. rewrite Nat.sub_succ, Nat.sub_0_r, drop_append.
      change (String a (old' ++ rest)) with (String a old' ++ rest).
      now rewrite remove_spaces_append.
    + simpl. destruct (isspace c); now rewrite (IH 0%nat).
Qed.

Lemma remove_spaces_interleave (new s : string) :
  remove_spaces new = "" ->
  remove_spaces (interleave new s) = remove_spaces s.
Proof.
  intros Hnew. induction s as [|c s IH]; simpl; [exact Hnew|].
  rewrite remove_spaces_append, Hnew. simpl. now rewrite IH.
Qed.

Lemma remove_spaces_replace (old new s : string) :
  remove_spaces new = remove_spaces old ->
  remove_spaces (replace old new s) = remove_spaces s.
Proof.
  intros Hnew. destruct old as [|a old']; unfold replace.
  - now apply remove_spaces_interleave.
  - now rewrite remove_spaces_replace_scan.
Qed.

(** A string without ["<"] is copied by a scan for a text that starts with
    ["<"], and holds no occurrence of such a text. *)
Lemma replace_scan_lacks (old' new b rest : string) :
  lacks "<" b = true ->
  replace_scan (String "<" old') new 0 (b ++ rest)
  = b ++ replace_scan (String "<" old') new 0 rest.
Proof.
  induction b as [|c b IH]; intros H; [reflexivity|].
  cbn [lacks] in H. apply andb_prop in H as [Hc Hb].
  change (String c b ++ rest) with (String c (b ++ rest)).
  cbn [replace_scan startswith].
  apply negb_true_iff in Hc. rewrite Hc.
  cbn [andb orb]. now rewrite (IH Hb).
Qed.

Lemma contains_lacks (old' b rest : string) :
  lacks "<" b = true ->
  contains (String "<" old') (b ++ rest) = contains (String "<" old') rest.
Proof.
  induction b as [|c b IH]; intros H; [reflexivity|].
  cbn [lacks] in H. apply andb_prop in H as [Hc Hb].
  change (String c b ++ rest) with (String c (b ++ rest)).
  cbn [contains startswith].
  apply negb_true_iff in Hc. rewrite Hc.
  cbn [andb orb]. now rewrite (IH Hb).
Qed.

End PyStrFacts.

(** ** Tokenizer, encoder and padding *)

Module TokenizerFacts.
Import PyStr PyStrFacts Vocab Tokenizer.
Local Open Scope string_scope.

Example custom_tokenizer_in_file_order :
  custom_tokenizer ["CC"; "O"] "CCOCCN" = ["CC"; "O"; "CC"; "N"] /\
  custom_tokenizer ["CC"; "C"] "CCOCCN" = ["C"; "C"; "O"; "C"; "C"; "N"].
Proof. split; reflexivity. Qed.

Example encode_unknown_token :
  encode_smiles_to_indices ["CC"; "O"] ["CC"; "O"; "N"] "CCOCCNF"
  = [2; 4; 5; 4; 1; 3]%Z.
Proof. reflexivity. Qed.

Lemma bracket_remove_spaces (smiles_string token : string) :
  remove_spaces (bracket smiles_string token) = remove_spaces smiles_string.
Proof.
  unfold bracket. destruct (contains token smiles_string); [|reflexivity].
  apply remove_spaces_replace.
  now rewrite !remove_spaces_append, append_empty_r.
Qed.

Lemma fold_bracket_remove_spaces (custom_tokens : list string) :
  forall smiles_string,
    remove_spaces (fold_left bracket custom_tokens smiles_string)
    = remove_spaces smiles_string.
Proof.
  induction custom_tokens as [|token rest IH]; intros smiles_string; simpl.
  - reflexivity.
  - now rewrite IH, bracket_remove_spaces.
Qed.

(** C10: tokenization loses no characters.  For every list of custom tokens
    and every string without whitespace, the tokens that [custom_tokenizer]
    returns, concatenated in order, are the original string.  (The custom
    tokens need not be free of whitespace for this.) *)
Theorem custom_tokenizer_lossless (custom_tokens : list string) (smiles : string) :
  no_whitespace smiles = true ->
  join (custom_tokenizer custom_tokens smiles) = smiles.
Proof.
  intros H. unfold custom_tokenizer.
  rewrite join_split, fold_bracket_remove_spaces.
  now apply remove_spaces_id.
Qed.

Lemma custom_tokenizer_lossless_witness :
  join (custom_tokenizer ["CC"; "O"; "C"; "(C"] "CCOC(C)=O") = "CCOC(C)=O".
Proof. apply custom_tokenizer_lossless. reflexivity. Defined.

(** The specials sit at indices 0 to 3 of every built vocabulary, and the
    default index is the index of ["<unk>"]. *)
Lemma vocab_specials (vocab_tokens : list string) :
  getitem (vocab vocab_tokens) "<pad>" = 0%Z /\
  getitem (vocab vocab_tokens) "<unk>" = 1%Z /\
  getitem (vocab vocab_tokens) "<sos>" = 2%Z /\
  getitem (vocab vocab_tokens) "<eos>" = 3%Z /\
  default_index (vocab vocab_tokens) = 1%Z.
Proof. repeat split; reflexivity. Qed.

Lemma index_from_spec (token : string) (tokens : list string) : forall i,
  match index_from i token tokens with
  | Some j => (i <= j)%Z /\ nth_error tokens (Z.to_nat (j - i)) = Some token
  | None => ~ In token tokens
  end.
Proof.
  induction tokens as [|t rest IH]; intros i; simpl.
  - tauto.
  - destruct (String.eqb_spec t token) as [->|Hne].
    + split; [lia|]. now rewrite Z.sub_diag.
    + specialize (IH (i + 1)%Z).
      destruct (index_from (i + 1) token rest) as [j|].
      * destruct IH as [Hle Hnth]. split; [lia|].
        replace (Z.to_nat (j - i)) with (S (Z.to_nat (j - (i + 1)))) by lia.
        exact Hnth.
      * intros [H|H]; [now apply Hne | now apply IH].
Qed.

(** [vocab[token]] is an index of the token when the token is in the
    vocabulary, and the index of ["<unk>"] when it is not. *)
Lemma getitem_spec (vocab_tokens : list string) (token : string) :
  let v := vocab vocab_tokens in
  (In token (itos v) /\ lookup_token v (getitem v token) = Some token) \/
  (~ In token (itos v) /\ getitem v token = getitem v "<unk>").
Proof.
  intros v.
  pose proof (index_from_spec token (itos v) 0) as H.
  assert (Hget : getitem v token
                 = match index_from 0 token (itos v) with
                   | Some i => i
                   | None => getitem v "<unk>"
                   end).
  { unfold getitem at 1, stoi.
    destruct (index_from 0 token (itos v)); reflexivity. }
  destruct (index_from 0 token (itos v)) as [j|]; rewrite Hget.
  - left. destruct H as [Hle Hnth]. rewrite Z.sub_0_r in Hnth.
    split; [eapply nth_error_In; eassumption|].
    unfold lookup_token. destruct (Z.ltb_spec j 0); [lia | exact Hnth].
  - right. split; [exact H | reflexivity].
Qed.

(** C4: [encode_smiles_to_indices] returns the id of ["<sos>"], then one id
    per token of [custom_tokenizer], in order, then the id of ["<eos>"]; a
    token of the vocabulary gets an id that the vocabulary maps back to it, a
    token outside the vocabulary gets the id of ["<unk>"]; the length is the
    number of tokens plus 2. *)
Theorem encode_smiles_to_indices_spec
    (custom_tokens vocab_tokens : list string) (smiles : string) :
  let v := vocab vocab_tokens in
  let tokens := custom_tokenizer custom_tokens smiles in
  exists ids,
    encode_smiles_to_indices custom_tokens vocab_tokens smiles
    = (getitem v "<sos>" :: ids ++ [getitem v "<eos>"])%list /\
    Forall2 (fun token id =>
               (In token (itos v) /\ lookup_token v id = Some token) \/
               (~ In token (itos v) /\ id = getitem v "<unk>"))
            tokens ids /\
    lookup_token v (getitem v "<sos>") = Some "<sos>" /\
    lookup_token v (getitem v "<eos>") = Some "<eos>" /\
    lookup_token v (getitem v "<unk>") = Some "<unk>" /\
    List.length (encode_smiles_to_indices custom_tokens vocab_tokens smiles)
    = (List.length tokens + 2)%nat.
Proof.
  intros v tokens. exists (map (getitem v) tokens).
  split; [reflexivity|]. split; [|repeat split].
  - induction tokens as [|t rest IH]; simpl; constructor.
    + apply getitem_spec.
    + exact IH.
  - unfold encode_smiles_to_indices. fold v. fold tokens.
    simpl. rewrite length_app, length_map. simpl. lia.
Qed.

(** C6: for [len(seq) <= L], [pad_sequence(seq, L)] has length exactly [L],
    starts with [seq] unchanged, and continues with the id of ["<pad>"]
    only. *)
Theorem pad_sequence_within (vocab_tokens : list string) (seq : list Z) (L : Z) :
  (Z.of_nat (List.length seq) <= L)%Z ->
  let padded := pad_sequence vocab_tokens seq L in
  Z.of_nat (List.length padded) = L /\
  firstn (List.length seq) padded = seq /\
  Forall (fun id => id = getitem (vocab vocab_tokens) "<pad>")
         (skipn (List.length seq) padded).
Proof.
  intros Hle padded. unfold padded, pad_sequence, list_mul.
  set (pad := getitem (vocab vocab_tokens) "<pad>").
  set (n := (L - Z.of_nat (List.length seq))%Z).
  assert (Hrep : forall k, List.concat (repeat [pad] k) = repeat pad k).
  { induction k as [|k IH]; simpl; [reflexivity | now rewrite IH]. }
  assert (Htail : (if (n <=? 0)%Z then [] else List.concat (repeat [pad] (Z.to_nat n)))
                  = repeat pad (Z.to_nat n)).
  { destruct (Z.leb_spec n 0) as [H0|H0].
    - replace (Z.to_nat n) with 0%nat by lia. reflexivity.
    - apply Hrep. }
  rewrite Htail. repeat split.
  - rewrite length_app, repeat_length. lia.
  - rewrite firstn_app, Nat.sub_diag, firstn_all. simpl. apply app_nil_r.
  - rewrite skipn_app, Nat.sub_diag, skipn_all. simpl.
    apply Forall_forall. intros id Hin. now apply repeat_spec in Hin.
Qed.

Lemma pad_sequence_within_witness :
  let padded := pad_sequence ["C"; "O"] [2; 4; 5; 3]%Z 6 in
  Z.of_nat (List.length padded) = 6%Z /\
  firstn 4 padded = [2; 4; 5; 3]%Z /\
  Forall (fun id => id = 0%Z) (skipn 4 padded).
Proof.
  apply (pad_sequence_within ["C"; "O"] [2; 4; 5; 3]%Z 6). simpl. lia.
Defined.

(** C2 (as stated in the claim, refuted): padding the four ids of an encoded
    string to [max_len = 2] raises nothing; it returns the four ids, a
    sequence longer than [max_len]. *)
Lemma pad_sequence_too_long_returns :
  pad_sequence ["C"; "O"] [2; 4; 5; 3]%Z 2 = [2; 4; 5; 3]%Z /\
  (Z.of_nat (List.length (pad_sequence ["C"; "O"] [2; 4; 5; 3]%Z 2)) > 2)%Z.
Proof. split; [reflexivity | simpl; lia]. Qed.

(** C2 (amended): for every [seq] longer than [max_len],
    [pad_sequence(seq, max_len)] returns [seq] itself, unpadded; no error is
    raised and the result is longer than [max_len]. *)
Theorem pad_sequence_beyond (vocab_tokens : list string) (seq : list Z) (max_len : Z) :
  (Z.of_nat (List.length seq) > max_len)%Z ->
  pad_sequence vocab_tokens seq max_len = seq /\
  (Z.of_nat (List.length (pad_sequence vocab_tokens seq max_len)) > max_len)%Z.
Proof.
  intros Hgt.
  assert (H : pad_sequence vocab_tokens seq max_len = seq).
  { unfold pad_sequence, list_mul.
    destruct (Z.leb_spec (max_len - Z.of_nat (List.length seq)) 0); [|lia].
    apply app_nil_r. }
  rewrite H. split; [reflexivity | exact Hgt].
Qed.

Lemma pad_sequence_beyond_witness :
  pad_sequence ["C"; "O"] [2; 4; 5; 4; 3]%Z 3 = [2; 4; 5; 4; 3]%Z /\
  (Z.of_nat (List.length (pad_sequence ["C"; "O"] [2; 4; 5; 4; 3]%Z 3)) > 3)%Z.
Proof.
  apply (pad_sequence_beyond ["C"; "O"] [2; 4; 5; 4; 3]%Z 3). simpl. lia.
Defined.

End TokenizerFacts.

(** ** The training criterion *)

Module CriterionFacts.
Import Exn Vocab Tokenizer Criterion.

Section CrossEntropyLoss.

Variable position_loss : list float -> Z -> float.
Variable ignore_index : Z.

(** Positions whose target is [ignore_index] leave the sums as they are. *)
Lemma accumulate_ignored (target : list Z) :
  Forall (fun t => t = ignore_index) target ->
  forall input acc, accumulate position_loss ignore_index input target acc = acc.
Proof.
  induction 1 as [|t target -> _ IH]; intros input acc.
  - now destruct input.
  - destruct input as [|row input]; [reflexivity|].
    cbn [accumulate]. rewrite Z.eqb_refl. apply IH.
Qed.

Lemma accumulate_app (input : list (list float)) :
  forall target input' target' acc,
    List.length input = List.length target ->
    accumulate position_loss ignore_index (input ++ input') (target ++ target') acc
    = accumulate position_loss ignore_index input' target'
        (accumulate position_loss ignore_index input target acc).
Proof.
  induction input as [|row input IH]; intros [|t target] input' target' acc Hlen;
    try discriminate Hlen.
  - reflexivity.
  - injection Hlen as Hlen. cbn [app accumulate].
    destruct (t =? ignore_index)%Z; now apply IH.
Qed.

(** The sums only see the positions that count. *)
Lemma accumulate_counted (input : list (list float)) :
  forall target acc,
    accumulate position_loss ignore_index input target acc
    = accumulate position_loss ignore_index
        (map fst (counted ignore_index input target))
        (map snd (counted ignore_index input target)) acc.
Proof.
  unfold counted.
  induction input as [|row input IH]; intros [|t target] acc; try reflexivity.
  cbn [combine filter accumulate snd].
  destruct (t =? ignore_index)%Z eqn:E; cbn [negb].
  - apply IH.
  - cbn [map fst snd accumulate]. rewrite E. apply IH.
Qed.

End CrossEntropyLoss.

Lemma pad_sequence_repeat (vocab_tokens : list string) (seq : list Z) (n : nat) :
  pad_sequence vocab_tokens seq (Z.of_nat (List.length seq + n))
  = (seq ++ repeat (getitem (vocab vocab_tokens) "<pad>"%string) n)%list.
Proof.
  unfold pad_sequence, list_mul. f_equal.
  replace (Z.of_nat (List.length seq + n) - Z.of_nat (List.length seq))%Z
    with (Z.of_nat n) by lia.
  destruct (Z.leb_spec (Z.of_nat n) 0) as [H0|H0].
  - now replace n with 0%nat by lia.
  - rewrite Nat2Z.id. clear. induction n as [|n IH]; simpl; [reflexivity | now rewrite IH].
Qed.

(** C7: the criterion masks padding.  The loss of a batch is the loss of
    its positions whose target is not the pad id, so positions with a pad
    target contribute nothing; and for a sequence padded to length [k], the
    loss is the same float when the sequence is padded to [k + 100] instead
    and the model supplies 100 further rows of logits, whatever they are. *)
Theorem criterion_masks_padding
    (position_loss : list float -> Z -> float) (vocab_tokens : list string)
    (seq : list Z) (k : nat) (input extra : list (list float)) :
  (List.length seq <= k)%nat ->
  List.length input = k ->
  List.length extra = 100%nat ->
  let pad := getitem (vocab vocab_tokens) "<pad>"%string in
  (forall rows targets,
     List.length rows = List.length targets ->
     criterion position_loss vocab_tokens rows targets
     = criterion position_loss vocab_tokens
         (map fst (counted pad rows targets)) (map snd (counted pad rows targets))) /\
  exists loss,
    criterion position_loss vocab_tokens input
      (pad_sequence vocab_tokens seq (Z.of_nat k)) = Ok loss /\
    criterion position_loss vocab_tokens (input ++ extra)
      (pad_sequence vocab_tokens seq (Z.of_nat (k + 100))) = Ok loss.
Proof.
  intros Hseq Hinput Hextra pad. split.
  - intros rows targets Hlen. unfold criterion, CrossEntropyLoss.
    rewrite !length_map, Hlen, !Nat.eqb_refl.
    now rewrite <- accumulate_counted.
  - replace (Z.of_nat (k + 100))
      with (Z.of_nat (List.length seq + (k - List.length seq + 100))) by lia.
    replace (Z.of_nat k)
      with (Z.of_nat (List.length seq + (k - List.length seq))) by lia.
    rewrite !pad_sequence_repeat. fold pad.
    rewrite repeat_app, app_assoc.
    set (target := (seq ++ repeat pad (k - List.length seq))%list).
    assert (Hlen : List.length input = List.length target).
    { unfold target. rewrite length_app, repeat_length. lia. }
    unfold criterion, CrossEntropyLoss. fold pad.
    rewrite !length_app, repeat_length, Hextra, Hlen, !Nat.eqb_refl.
    eexists. split; [reflexivity|].
    rewrite accumulate_app by exact Hlen.
    rewrite accumulate_ignored; [reflexivity|].
    apply Forall_forall. intros t Ht. now apply repeat_spec in Ht.
Qed.

(** The theorem for the ids [2; 4; 3] padded to 4 and to 104, with the
    logit of the target as the loss of a position. *)
Lemma criterion_masks_padding_witness :
  let position_loss := fun (row : list float) (t : Z) => nth (Z.to_nat t) row 0%float in
  let input := [[0; 0; 1; 0; 0]; [0; 0; 0; 0; 0.5]; [0; 0; 0; 2; 0]; [4; 0; 0; 0; 0]]%float in
  exists loss,
    criterion position_loss ["C"%string] input
      (pad_sequence ["C"%string] [2; 4; 3]%Z 4) = Ok loss /\
    criterion position_loss ["C"%string] (input ++ repeat [8; 8; 8; 8; 8]%float 100)
      (pad_sequence ["C"%string] [2; 4; 3]%Z 104) = Ok loss.
Proof.
  intros position_loss input.
  destruct (criterion_masks_padding position_loss ["C"%string] [2; 4; 3]%Z 4
              input (repeat [8; 8; 8; 8; 8]%float 100)) as [_ H].
  - simpl. lia.
  - reflexivity.
  - reflexivity.
  - exact H.
Defined.

End CriterionFacts.

(** ** The evaluator *)

Module EvaluationFacts.
Import PyStr PyStrFacts Vocab Tokenizer Exn Evaluation.
Local Open Scope string_scope.

Section Notebook.

Variable custom_tokens : list string.
Variable vocab_tokens : list string.
Variable max_len : Z.
Variable model_argmax : list Z -> list Z.

(** The loop adds to the counters the number of exact matches, and over the
    mismatches only: their number, their edit distances and the lengths of
    their originals. *)
Lemma evaluate_loop_counts (smiles_list decoded : list string) :
  decodes_to custom_tokens vocab_tokens max_len model_argmax smiles_list decoded ->
  forall c,
    let pairs := combine smiles_list decoded in
    evaluate_loop custom_tokens vocab_tokens max_len model_argmax smiles_list c
    = Ok (mkCounters
            (correct_count c + Z.of_nat (List.length (filter exact_match pairs)))
            (total_levenshtein_distance c + total edit_distance (filter mismatch pairs))
            (total_mismatched_smiles_length c
             + total original_length (filter mismatch pairs))
            (mismatched_count c + Z.of_nat (List.length (filter mismatch pairs)))).
Proof.
  induction 1 as [|smiles d smiles_list decoded Hd _ IH]; intros c; cbn zeta.
  - destruct c; unfold total; simpl. f_equal. f_equal; lia.
  - cbn [evaluate_loop]. rewrite Hd. cbn [bind]. rewrite IH. cbn zeta.
    cbn [combine filter].
    change (exact_match (smiles, d)) with (smiles =? d)%string.
    change (mismatch (smiles, d)) with (negb (smiles =? d)%string).
    unfold count.
    destruct (smiles =? d)%string; cbn [negb]; unfold total;
      cbn [correct_count total_levenshtein_distance
           total_mismatched_smiles_length mismatched_count List.length
           map fold_right].
    + f_equal; f_equal; lia.
    + change (edit_distance (smiles, d))
        with (Z.of_nat (Levenshtein.distance (upper smiles) d)).
      change (original_length (smiles, d)) with (Z.of_nat (String.length smiles)).
      f_equal; f_equal; lia.
Qed.




End Notebook.

(** *** Decoding *)

Lemma block_neq (token pat' : string) :
  lacks "<" token = true -> (token =? String "<" pat')%string = false.
Proof.
  intros H. apply String.eqb_neq. intros ->. discriminate.
Qed.

(** Removing one of the three texts from a sequence of blocks removes the
    blocks equal to it. *)
Lemma replace_block (pat token rest : string) :
  In pat ["<pad>"; "<sos>"; "<eos>"] -> block token ->
  replace pat "" (token ++ rest)
  = (if (token =? pat)%string then "" else token) ++ replace pat "" rest.
Proof.
  intros Hpat [Hsp|Hlt].
  - simpl in Hpat, Hsp.
    destruct Hpat as [<-|[<-|[<-|[]]]];
      destruct Hsp as [<-|[<-|[<-|[<-|[]]]]]; reflexivity.
  - simpl in Hpat. unfold replace.
    destruct Hpat as [<-|[<-|[<-|[]]]];
      rewrite (block_neq _ _ Hlt); now apply replace_scan_lacks.
Qed.

Lemma replace_blocks (pat : string) (tokens : list string) :
  In pat ["<pad>"; "<sos>"; "<eos>"] -> Forall block tokens ->
  replace pat "" (join tokens)
  = join (filter (fun token => negb (token =? pat)%string) tokens).
Proof.
  intros Hpat. induction 1 as [|token tokens Hb _ IH].
  - simpl in Hpat. destruct Hpat as [<-|[<-|[<-|[]]]]; reflexivity.
  - rewrite join_cons, (replace_block _ _ _ Hpat Hb), IH. cbn [filter].
    destruct (token =? pat)%string; cbn [negb]; [reflexivity|].
    now rewrite join_cons.
Qed.

Lemma contains_block (pat token rest : string) :
  In pat ["<pad>"; "<sos>"; "<eos>"] -> block token ->
  (token =? pat)%string = false ->
  contains pat (token ++ rest) = contains pat rest.
Proof.
  intros Hpat [Hsp|Hlt].
  - simpl in Hpat, Hsp.
    destruct Hpat as [<-|[<-|[<-|[]]]];
      destruct Hsp as [<-|[<-|[<-|[<-|[]]]]];
      intros Hne; try discriminate Hne; reflexivity.
  - intros _. simpl in Hpat.
    destruct Hpat as [<-|[<-|[<-|[]]]]; now apply contains_lacks.
Qed.

Lemma contains_blocks (pat : string) (tokens : list string) :
  In pat ["<pad>"; "<sos>"; "<eos>"] -> Forall block tokens ->
  Forall (fun token => (token =? pat)%string = false) tokens ->
  contains pat (join tokens) = false.
Proof.
  intros Hpat. induction 1 as [|token tokens Hb _ IH]; intros Hne.
  - simpl in Hpat. destruct Hpat as [<-|[<-|[<-|[]]]]; reflexivity.
  - apply Forall_cons_iff in Hne as [Hne1 Hne2].
    rewrite join_cons, (contains_block _ _ _ Hpat Hb Hne1). now apply IH.
Qed.

(** The loop keeps the tokens before the first ["<eos>"]. *)
Lemma decode_loop_before_eos (vocab_tokens : list string)
    (output_tokens : list Z) (tokens : list string) :
  Forall2 (fun i token => lookup_token (vocab vocab_tokens) i = Some token)
          output_tokens tokens ->
  forall decoded_tokens,
    decode_loop vocab_tokens output_tokens decoded_tokens
    = Ok (decoded_tokens ++ before_eos tokens)%list.
Proof.
  induction 1 as [|i token output_tokens tokens Hi _ IH]; intros decoded_tokens.
  - simpl. now rewrite app_nil_r.
  - cbn [decode_loop before_eos]. rewrite Hi.
    destruct (token =? "<eos>")%string.
    + now rewrite app_nil_r.
    + now rewrite IH, <- app_assoc.
Qed.

(** Every index in range has a token. *)
Lemma lookup_token_in_range (v : Vocab) (output_tokens : list Z) :
  Forall (fun i => (0 <= i < len v)%Z) output_tokens ->
  exists tokens,
    Forall2 (fun i token => lookup_token v i = Some token) output_tokens tokens /\
    Forall (fun token => In token (itos v)) tokens.
Proof.
  induction 1 as [|i output_tokens Hi _ (tokens & H2 & Hin)].
  - exists []. split; constructor.
  - unfold len in Hi.
    destruct (nth_error (itos v) (Z.to_nat i)) as [token|] eqn:Hnth.
    + exists (token :: tokens). split; constructor; try assumption.
      * unfold lookup_token. destruct (Z.ltb_spec i 0); [lia | exact Hnth].
      * eapply nth_error_In; eassumption.
    + apply nth_error_None in Hnth. lia.
Qed.

Lemma Forall_before_eos (P : string -> Prop) (tokens : list string) :
  Forall P tokens ->
  Forall (fun token => P token /\ (token =? "<eos>")%string = false)
         (before_eos tokens).
Proof.
  induction 1 as [|token tokens Hp _ IH]; simpl; [constructor|].
  destruct (token =? "<eos>")%string eqn:E; constructor; auto.
Qed.

(** C5 (as stated in the claim, refuted): when the model outputs the id of
    ["<unk>"] before the first ["<eos>"], the decoded string contains the
    special-token text ["<unk>"]. *)
Lemma decode_output_keeps_unk :
  decode_output ["C"; "O"] [2; 4; 1; 5; 3; 0; 0]%Z = Ok "C<unk>O" /\
  contains "<unk>" "C<unk>O" = true.
Proof. split; reflexivity. Qed.

(** Why the amended claim restricts the vocabulary: with tokens that hold a
    ["<"], removing ["<sos>"] can create a ["<pad>"] that stays. *)
Example decode_output_creates_pad :
  decode_output ["<p"; "ad>"] [4; 2; 5; 3]%Z = Ok "<pad>".
Proof. reflexivity. Qed.

(** C5 (amended): for every output sequence of ids of a vocabulary whose
    tokens, the four specials apart, contain no ["<"]: decoding maps the ids
    to tokens position by position, stops at the first ["<eos>"] token, and
    returns the concatenation of the tokens before it that are neither
    ["<pad>"] nor ["<sos>"]; the result contains none of the texts
    ["<pad>"], ["<sos>"], ["<eos>"].  Tokens ["<unk>"] stay in the
    result. *)
Theorem decode_output_spec (vocab_tokens : list string) (output_tokens : list Z) :
  Forall (fun token => lacks "<" token = true) vocab_tokens ->
  Forall (fun i => (0 <= i < len (vocab vocab_tokens))%Z) output_tokens ->
  exists tokens,
    Forall2 (fun i token => lookup_token (vocab vocab_tokens) i = Some token)
            output_tokens tokens /\
    let decoded_smiles := join (filter not_pad_sos (before_eos tokens)) in
    decode_output vocab_tokens output_tokens = Ok decoded_smiles /\
    contains "<pad>" decoded_smiles = false /\
    contains "<sos>" decoded_smiles = false /\
    contains "<eos>" decoded_smiles = false.
Proof.
  intros Hvocab Hrange.
  destruct (lookup_token_in_range _ _ Hrange) as (tokens & Hlook & Hin).
  exists tokens. split; [exact Hlook|]. cbn zeta.
  assert (Hblock : Forall block tokens).
  { eapply Forall_impl; [|exact Hin]. intros token Ht.
    apply in_app_or in Ht as [Ht|Ht]; [now left | right].
    rewrite Forall_forall in Hvocab. now apply Hvocab. }
  apply Forall_before_eos in Hblock.
  set (kept := before_eos tokens) in *.
  assert (Hb : Forall block kept)
    by (eapply Forall_impl; [|exact Hblock]; intros t [Ht _]; exact Ht).
  assert (Hne : Forall (fun token => (token =? "<eos>")%string = false) kept)
    by (eapply Forall_impl; [|exact Hblock]; intros t [_ Ht]; exact Ht).
  assert (Hfilter : forall (p : string -> bool) (l : list string),
             Forall block l -> Forall block (filter p l)).
  { intros p l Hl. rewrite Forall_forall in *. intros t Ht.
    apply filter_In in Ht. now apply Hl. }
  assert (Hout : strip_specials (join kept) = join (filter not_pad_sos kept)).
  { unfold strip_specials.
    rewrite (replace_blocks "<pad>"), (replace_blocks "<sos>"), (replace_blocks "<eos>");
      simpl; auto.
    f_equal. clear - Hne. induction kept as [|t kept IH]; [reflexivity|].
    apply Forall_cons_iff in Hne as [Ht Hk]. cbn [filter]. unfold not_pad_sos at 1.
    destruct (t =? "<pad>")%string; cbn [negb andb filter]; [now apply IH|].
    destruct (t =? "<sos>")%string; cbn [negb andb filter]; [now apply IH|].
    rewrite Ht. cbn [negb]. now rewrite IH. }
  split; [|repeat split].
  - unfold decode_output. rewrite (decode_loop_before_eos _ _ _ Hlook).
    cbn [bind app]. fold kept. now rewrite Hout.
  - apply contains_blocks; simpl; auto.
    apply Forall_forall. intros t Ht. apply filter_In in Ht as [_ Ht].
    unfold not_pad_sos in Ht. now destruct (t =? "<pad>")%string.
  - apply contains_blocks; simpl; auto.
    apply Forall_forall. intros t Ht. apply filter_In in Ht as [_ Ht].
    unfold not_pad_sos in Ht.
    destruct (t =? "<sos>")%string; [|reflexivity].
    now rewrite andb_false_r in Ht.
  - apply contains_blocks; simpl; auto.
    apply Forall_forall. intros t Ht. apply filter_In in Ht as [Ht _].
    rewrite Forall_forall in Hne. now apply Hne.
Qed.

Lemma decode_output_spec_witness :
  exists tokens,
    Forall2 (fun i token => lookup_token (vocab ["C"; "O"]) i = Some token)
            [2; 4; 1; 5; 3; 0; 0]%Z tokens /\
    let decoded_smiles := join (filter not_pad_sos (before_eos tokens)) in
    decode_output ["C"; "O"] [2; 4; 1; 5; 3; 0; 0]%Z = Ok decoded_smiles /\
    contains "<pad>" decoded_smiles = false /\
    contains "<sos>" decoded_smiles = false /\
    contains "<eos>" decoded_smiles = false.
Proof.
  apply (decode_output_spec ["C"; "O"] [2; 4; 1; 5; 3; 0; 0]%Z).
  - repeat constructor.
  - repeat constructor; simpl; lia.
Defined.

(** *** Evaluation *)

Example evaluate_with_a_mismatch :
  evaluate_reconstruction ["C"; "O"] ["C"; "O"] 6 (fun ids => ids)
    ["CO"; "CCO"; "CN"] false
  = Ok (200 # 3, 5, 2)%Q.
Proof. reflexivity. Qed.

Example evaluate_empty_list :
  evaluate_reconstruction ["C"; "O"] ["C"; "O"] 6 (fun ids => ids) [] false
  = Raise ZeroDivisionError.
Proof. reflexivity. Qed.


End EvaluationFacts.

(** ** The subword vocabulary builder *)

Module SPEFacts.
Import SPE.
Local Open Scope string_scope.

Example atomic_symbols_units :
  atomic_symbols "CC(=O)Cl[nH]Brc1"
  = ["C"; "C"; "("; "="; "O"; ")"; "Cl"; "[nH]"; "Br"; "c"; "1"].
Proof. reflexivity. Qed.

Example scenario_vocabulary :
  learn (fun _ _ => false) 10 2 (map atomic_symbols scenario)
  = [("CC", 4%nat); ("CCO", 2%nat)].
Proof. reflexivity. Qed.

Lemma pair_eqb_eq (p q : pair) : pair_eqb p q = true -> p = q.
Proof.
  destruct p as [a b], q as [c d]. unfold pair_eqb. cbn [fst snd].
  intros H. apply andb_prop in H as [H1 H2].
  apply String.eqb_eq in H1, H2. now subst.
Qed.

(** A pair of positive frequency occurs in the corpus. *)
Lemma frequency_positive (corpus : list (list string)) (p : pair) :
  frequency corpus p <> 0%nat -> In p (corpus_pairs corpus).
Proof.
  unfold frequency. induction (corpus_pairs corpus) as [|q pairs IH]; simpl.
  - intros H. now contradiction H.
  - destruct (pair_eqb p q) eqn:E.
    + intros _. left. symmetry. now apply pair_eqb_eq.
    + intros H. right. now apply IH.
Qed.

(** Without augmentation the builder sees the corpus as it is. *)
Lemma augment_0 (rewrites : string -> list string) (smiles_list : list string) :
  augment rewrites 0 smiles_list = smiles_list.
Proof.
  unfold augment. induction smiles_list as [|smiles rest IH].
  - reflexivity.
  - cbn [flat_map]. rewrite IH. reflexivity.
Qed.

(** C8 (as stated in the claim, refuted): in the corpus ["CCO"; "CCN";
    "CCOCC"] the pair ("C", "C") occurs four times, twice in "CCOCC"; its
    frequency across the corpus is not 3. *)
Lemma scenario_frequency_not_3 :
  frequency (map atomic_symbols scenario) ("C", "C") <> 3%nat.
Proof. vm_compute. discriminate. Qed.

(** C8 (amended): on the corpus ["CCO"; "CCN"; "CCOCC"], not augmented,
    with [min_frequency = 2] and room for at least one token: the pair
    ("C", "C") has frequency 4 across the corpus, every other pair has a
    smaller frequency, and the first entry of the vocabulary that the builder
    returns is "CC", whatever the builder does between pairs of equal
    frequency. *)
Theorem scenario_first_merge
    (prefer : pair -> pair -> bool) (rewrites : string -> list string)
    (max_size : nat) :
  (1 <= max_size)%nat ->
  let corpus := map atomic_symbols scenario in
  frequency corpus ("C", "C") = 4%nat /\
  (forall p, p <> ("C", "C") -> (frequency corpus p < 4)%nat) /\
  most_frequent prefer corpus = Some (("C", "C"), 4%nat) /\
  exists rest, learn_SPE prefer rewrites scenario max_size 2 0 = "CC" :: rest.
Proof.
  intros Hsize corpus.
  assert (Hmost : most_frequent prefer corpus = Some (("C", "C"), 4%nat)).
  { vm_compute.
    repeat match goal with
           | |- context [prefer ?p ?q] => destruct (prefer p q); vm_compute
           end.
    all: reflexivity. }
  split; [reflexivity|]. split; [|split; [exact Hmost|]].
  - intros p Hp.
    destruct (Nat.eq_dec (frequency corpus p) 0) as [H0|H0]; [lia|].
    apply frequency_positive in H0. vm_compute in H0.
    repeat (destruct H0 as [<-|H0]; [first [now contradiction Hp | vm_compute; lia]|]).
    contradiction.
  - destruct max_size as [|max_size]; [lia|].
    unfold learn_SPE. rewrite augment_0. fold corpus.
    cbn [learn]. rewrite Hmost. cbn [Nat.ltb Nat.leb map fst snd].
    eexists. reflexivity.
Qed.

Lemma scenario_first_merge_witness :
  exists rest,
    learn_SPE (fun _ _ => false) (fun _ => []) scenario 10 2 0 = "CC" :: rest.
Proof.
  apply (scenario_first_merge (fun _ _ => false) (fun _ => []) 10). lia.
Defined.



End SPEFacts.

Module EarlyStoppingFacts.
Import EarlyStopping.

(** The loop over a budget split in two: when the first part ends without
    [break], the second part continues from its state and epoch number. *)
Lemma loop_app patience min_delta xs ys : forall epoch st st',
  loop patience min_delta epoch st xs = (st', BudgetExhausted) ->
  loop patience min_delta epoch st (xs ++ ys)
  = loop patience min_delta (epoch + List.length xs) st' ys.
Proof.
  induction xs as [|x xs IH]; intros epoch st st' H; simpl in *.
  - injection H as <-. now rewrite Nat.add_0_r.
  - destruct (triggered patience (update min_delta st epoch x)); [discriminate|].
    rewrite (IH _ _ _ H). f_equal. lia.
Qed.

(** Epochs without improvement only count up, and the [break] comes with the
    epoch that brings the counter to [patience]. *)
Lemma loop_stale patience min_delta best ck rest : forall mid epoch counter,
  Forall (fun l => (l <? best - min_delta)%float = false) mid ->
  (counter < patience)%Z ->
  (counter + Z.of_nat (List.length mid) = patience)%Z ->
  loop patience min_delta epoch (mkState best counter ck) (mid ++ rest)
  = (mkState best patience ck, EarlyStopped (epoch + List.length mid - 1)).
Proof.
  induction mid as [|l mid IH]; intros epoch counter Hall Hlt Hlen; simpl in *.
  - lia.
  - apply Forall_cons_iff in Hall as [Hl Hmid].
    unfold update, improves; simpl. rewrite Hl.
    unfold triggered; simpl.
    destruct (Z.geb_spec (counter + 1) patience) as [Hge|Hlt'].
    + assert (mid = []) by (destruct mid; simpl in *; [reflexivity|lia]).
      subst mid. simpl in *. do 2 f_equal; lia.
    + rewrite IH by (assumption || lia). do 2 f_equal. lia.
Qed.

(** C1 (as stated in the claim, refuted): with [min_delta = 0.5] and
    [patience = 1], the losses [1.0; 0.5] improve at epoch 1 on the best seen by
    exactly [min_delta], so by at least [min_delta]; the loop nonetheless
    counts the epoch as stale: the counter goes to 1 instead of 0, the best
    stays 1.0, no checkpoint is saved at epoch 1 and training stops there. *)
Lemma early_stopping_at_least_min_delta_fails :
  (0.5 <=? 1 - 0.5)%float = true /\
  train 1 0.5%float [1%float; 0.5%float]
  = (mkState 1%float 1 (Some 0%nat), EarlyStopped 1).
Proof. split; reflexivity. Qed.

(** C1 (amended): an epoch whose validation loss is below the best seen by
    more than [min_delta] (the source's strict [<]) resets the counter,
    records the new best and saves a checkpoint; any other epoch increments
    the counter and keeps best and checkpoint.  When the loop reaches epoch
    [e = List.length pre] without stopping, epoch [e] improves, and none of the
    next [patience] epochs of the budget improves on it by more than
    [min_delta], training stops exactly at epoch [e + patience], with best
    loss and last checkpoint those of epoch [e]. *)
Theorem early_stopping_terminates
    (patience : Z) (min_delta : float) (pre mid rest : list float)
    (loss_e : float) (st_e : state) :
  train patience min_delta pre = (st_e, BudgetExhausted) ->
  improves min_delta st_e loss_e = true ->
  Forall (fun l => (l <? loss_e - min_delta)%float = false) mid ->
  Z.of_nat (List.length mid) = patience ->
  (forall st epoch l, improves min_delta st l = true ->
     update min_delta st epoch l = mkState l 0 (Some epoch)) /\
  (forall st epoch l, improves min_delta st l = false ->
     update min_delta st epoch l
     = mkState (best_val_loss st) (patience_counter st + 1) (checkpoint st)) /\
  train patience min_delta (pre ++ loss_e :: mid ++ rest)
  = (mkState loss_e patience (Some (List.length pre)),
     EarlyStopped (List.length pre + List.length mid)).
Proof.
  intros Hpre Himp Hmid Hlen.
  split; [|split].
  - intros st epoch l H. unfold update. now rewrite H.
  - intros st epoch l H. unfold update. now rewrite H.
  - unfold train in *. rewrite (loop_app _ _ _ _ _ _ _ Hpre).
    simpl. unfold update. rewrite Himp. unfold triggered; simpl.
    destruct (Z.geb_spec 0 patience) as [Hge|Hlt].
    + assert (mid = []) by (destruct mid; simpl in *; [reflexivity|lia]).
      subst mid. simpl in *. do 2 f_equal; lia.
    + rewrite (loop_stale patience min_delta loss_e (Some (List.length pre)) rest
                 mid (S (List.length pre)) 0 Hmid Hlt) by lia.
      do 2 f_equal. destruct mid; simpl in *; lia.
Qed.

(** The theorem at patience 2, [min_delta = 0.5]: epoch 1 improves from 3.0
    to 1.0, epochs 2 and 3 do not, training stops at epoch 3 although epoch 4
    would have improved. *)
Lemma early_stopping_terminates_witness :
  train 2 0.5%float ([3%float] ++ 1%float :: [0.875%float; 0.75%float] ++ [0.125%float])
  = (mkState 1%float 2 (Some 1%nat), EarlyStopped 3).
Proof.
  refine (proj2 (proj2 (early_stopping_terminates 2 0.5%float [3%float]
            [0.875%float; 0.75%float] [0.125%float] 1%float
            (mkState 3%float 0 (Some 0%nat)) _ _ _ _))).
  - reflexivity.
  - reflexivity.
  - repeat constructor.
  - reflexivity.
Defined.

End EarlyStoppingFacts.

(** ** More on the early-stopping loop *)

Module EarlyStoppingInvariants.
Import EarlyStopping EarlyStoppingState.

Lemma consistent_init : consistent [] init.
Proof. split; reflexivity. Qed.

Lemma consistent_update (min_delta : float) (done : list float) (st : state)
    (epoch_val_loss : float) :
  consistent done st ->
  consistent (done ++ [epoch_val_loss])
    (update min_delta st (List.length done) epoch_val_loss).
Proof.
  unfold consistent, update. intros H.
  destruct (improves min_delta st epoch_val_loss); cbn [checkpoint patience_counter best_val_loss].
  - rewrite length_app. cbn [List.length]. split; [lia|].
    rewrite nth_error_app2, Nat.sub_diag by lia. reflexivity.
  - destruct (checkpoint st) as [c|]; destruct H as [H1 H2];
      rewrite length_app; cbn [List.length]; (split; [lia|]).
    + rewrite nth_error_app1; [exact H2|].
      apply nth_error_Some. rewrite H2. discriminate.
    + exact H2.
Qed.

Lemma consistent_counter (done : list float) (st : state) :
  consistent done st -> (0 <= patience_counter st)%Z.
Proof.
  unfold consistent. destruct (checkpoint st) as [c|]; intros [H1 H2]; [|lia].
  assert (c < List.length done)%nat by (apply nth_error_Some; rewrite H2; discriminate).
  lia.
Qed.

(** The loop from a consistent state: it ends in a consistent state for the
    epochs it has run; a [break] comes with the counter at [patience]
    exactly, an exhausted budget with the counter below it. *)
Lemma loop_consistent (patience : Z) (min_delta : float) (rest : list float) :
  forall (done : list float) (st st' : state) (out : outcome),
    consistent done st ->
    (patience_counter st < patience)%Z ->
    loop patience min_delta (List.length done) st rest = (st', out) ->
    match out with
    | EarlyStopped e =>
        exists later,
          (rest = firstn (S e - List.length done) rest ++ later)%list /\
          (List.length done <= e < List.length done + List.length rest)%nat /\
          consistent (done ++ firstn (S e - List.length done) rest) st' /\
          patience_counter st' = patience
    | BudgetExhausted =>
        consistent (done ++ rest) st' /\ (patience_counter st' < patience)%Z
    end.
Proof.
  induction rest as [|l rest IH]; intros done st st' out Hc Hlt Hloop.
  - cbn [loop] in Hloop. injection Hloop as <- <-.
    rewrite app_nil_r. split; assumption.
  - cbn [loop] in Hloop.
    pose proof (consistent_update min_delta done st l Hc) as Hc'.
    set (st1 := update min_delta st (List.length done) l) in *.
    assert (Hstep : (patience_counter st1 <= patience_counter st + 1)%Z /\
                    (0 <= patience_counter st1 \/ patience_counter st1 = patience_counter st + 1)%Z).
    { pose proof (consistent_counter _ _ Hc).
      unfold st1, update. destruct (improves min_delta st l);
        cbn [patience_counter]; lia. }
    unfold triggered in Hloop.
    destruct (Z.geb_spec (patience_counter st1) patience) as [Hge|Hnot].
    + injection Hloop as <- <-.
      exists rest. replace (S (List.length done) - List.length done)%nat with 1%nat by lia.
      cbn [firstn app List.length]. repeat split; try lia. exact Hc'.
    + replace (S (List.length done)) with (List.length (done ++ [l])) in Hloop
        by (rewrite length_app; cbn [List.length]; lia).
      specialize (IH (done ++ [l])%list st1 st' out Hc' Hnot Hloop).
      destruct out as [e|].
      * destruct IH as (later & Hrest & Hrange & Hcons & Hcount).
        rewrite length_app in Hrange, Hrest, Hcons. cbn [List.length] in Hrange, Hrest, Hcons.
        exists later.
        replace (S e - List.length done)%nat
          with (S (S e - (List.length done + 1)))%nat by lia.
        cbn [firstn app List.length]. rewrite <- app_assoc in Hcons.
        repeat split; try lia; try assumption.
        f_equal. exact Hrest.
      * rewrite <- app_assoc in IH. exact IH.
Qed.

Lemma train_consistent (patience : Z) (min_delta : float) (val_losses : list float)
    (st : state) (out : outcome) :
  train patience min_delta val_losses = (st, out) ->
  exists done later, val_losses = (done ++ later)%list /\ consistent done st /\
    match out with
    | EarlyStopped e => List.length done = S e
    | BudgetExhausted => later = []
    end.
Proof.
  unfold train. intros Hloop.
  destruct (Z.ltb_spec 0 patience) as [Hpos|Hnon].
  - pose proof (loop_consistent patience min_delta val_losses [] init st out
                  consistent_init Hpos Hloop) as H.
    destruct out as [e|].
    + destruct H as (later & Hrest & Hrange & Hcons & _).
      cbn [List.length app] in *. rewrite Nat.sub_0_r in *.
      exists (firstn (S e) val_losses), later. repeat split; try assumption.
      rewrite length_firstn. lia.
    + destruct H as [Hcons _]. exists val_losses, [].
      rewrite app_nil_r. repeat split. exact Hcons.
  - destruct val_losses as [|l rest]; cbn [loop] in Hloop.
    + injection Hloop as <- <-. exists [], []. repeat split.
    + pose proof (consistent_update min_delta [] init l consistent_init) as Hc.
      cbn [List.length app] in Hc.
      pose proof (consistent_counter _ _ Hc) as H0.
      unfold triggered in Hloop.
      destruct (Z.geb_spec (patience_counter (update min_delta init 0 l)) patience);
        [|lia].
      injection Hloop as <- <-. exists [l], rest. repeat split. exact Hc.
Qed.

(** X1: with a patience of at least 1, training that stops early stops with
    the counter at [patience] exactly, [patience] epochs after the epoch of
    the last checkpoint, or at epoch [patience - 1] when no epoch ever
    improved; training that uses up its budget ends with the counter below
    [patience], the counter being the number of epochs since the last
    checkpoint. *)
Theorem train_stops_patience_after_checkpoint
    (patience : Z) (min_delta : float) (val_losses : list float)
    (st : state) (out : outcome) :
  (1 <= patience)%Z ->
  train patience min_delta val_losses = (st, out) ->
  match out with
  | EarlyStopped e =>
      (e < List.length val_losses)%nat /\
      patience_counter st = patience /\
      match checkpoint st with
      | Some c => (Z.of_nat e = Z.of_nat c + patience)%Z
      | None => (Z.of_nat e + 1 = patience)%Z
      end
  | BudgetExhausted =>
      (0 <= patience_counter st < patience)%Z /\
      match checkpoint st with
      | Some c =>
          (Z.of_nat c + patience_counter st + 1 = Z.of_nat (List.length val_losses))%Z
      | None => patience_counter st = Z.of_nat (List.length val_losses)
      end
  end.
Proof.
  intros Hpos Hloop. unfold train in Hloop.
  assert (H0 : (patience_counter init < patience)%Z) by (cbn; lia).
  pose proof (loop_consistent patience min_delta val_losses [] init st out
                consistent_init H0 Hloop) as H.
  destruct out as [e|].
  - destruct H as (later & Hrest & Hrange & Hcons & Hcount).
    cbn [List.length app] in *. rewrite Nat.sub_0_r in *.
    assert (Hlen : List.length (firstn (S e) val_losses) = S e)
      by (rewrite length_firstn; lia).
    repeat split; try lia.
    unfold consistent in Hcons. rewrite Hlen in Hcons.
    destruct (checkpoint st); destruct Hcons as [H1 _]; lia.
  - destruct H as [Hcons Hlt]. cbn [app] in Hcons.
    pose proof (consistent_counter _ _ Hcons).
    split; [lia|]. unfold consistent in Hcons.
    destruct (checkpoint st); destruct Hcons as [H1 _]; exact H1.
Qed.

Lemma train_stops_patience_after_checkpoint_witness :
  (3 < List.length [3; 1; 0.875; 0.75; 0.125]%float)%nat /\
  patience_counter (mkState 1%float 2 (Some 1%nat)) = 2%Z /\
  (Z.of_nat 3 = Z.of_nat 1 + 2)%Z.
Proof.
  apply (train_stops_patience_after_checkpoint 2 0.5%float
           [3; 1; 0.875; 0.75; 0.125]%float
           (mkState 1%float 2 (Some 1%nat)) (EarlyStopped 3)).
  - lia.
  - reflexivity.
Defined.

(** X2: whenever the loop ends, the best validation loss it holds is the
    loss of the epoch of its last checkpoint, and is infinity when no
    checkpoint was saved. *)
Theorem train_best_is_checkpoint_loss
    (patience : Z) (min_delta : float) (val_losses : list float)
    (st : state) (out : outcome) :
  train patience min_delta val_losses = (st, out) ->
  match checkpoint st with
  | Some c => nth_error val_losses c = Some (best_val_loss st)
  | None => best_val_loss st = infinity
  end.
Proof.
  intros Hloop.
  destruct (train_consistent _ _ _ _ _ Hloop) as (done & later & -> & Hcons & _).
  unfold consistent in Hcons.
  destruct (checkpoint st) as [c|]; destruct Hcons as [_ H2]; [|exact H2].
  rewrite nth_error_app1; [exact H2|].
  apply nth_error_Some. rewrite H2. discriminate.
Qed.

Lemma train_best_is_checkpoint_loss_witness :
  nth_error [3; 1; 0.875; 0.75; 0.125]%float 1 = Some 1%float.
Proof.
  apply (train_best_is_checkpoint_loss 2 0.5%float
           [3; 1; 0.875; 0.75; 0.125]%float
           (mkState 1%float 2 (Some 1%nat)) (EarlyStopped 3)).
  reflexivity.
Defined.

(** X3: with a patience of 0 or less, training stops in its first epoch,
    whatever the losses, also when that epoch improved and was
    checkpointed. *)
Theorem train_without_patience
    (patience : Z) (min_delta : float) (loss : float) (rest : list float) :
  (patience <= 0)%Z ->
  train patience min_delta (loss :: rest)
  = (update min_delta init 0 loss, EarlyStopped 0).
Proof.
  intros Hp. unfold train. cbn [loop].
  assert (H : triggered patience (update min_delta init 0 loss) = true).
  { unfold triggered, update.
    destruct (improves min_delta init loss); cbn [patience_counter init];
      apply Z.geb_le; lia. }
  now rewrite H.
Qed.

Lemma train_without_patience_witness :
  train 0 0.5%float [3; 1]%float = (mkState 3%float 0 (Some 0%nat), EarlyStopped 0).
Proof.
  apply (train_without_patience 0 0.5%float 3%float [1%float]). lia.
Defined.

(** A NaN is below nothing. *)
Lemma nan_not_below (x : float) : (nan <? x)%float = false.
Proof. rewrite ltb_spec. reflexivity. Qed.

Lemma loop_best_not_nan (patience : Z) (min_delta : float) (val_losses : list float) :
  forall epoch st st' out,
    best_val_loss st <> nan ->
    loop patience min_delta epoch st val_losses = (st', out) ->
    best_val_loss st' <> nan.
Proof.
  induction val_losses as [|l rest IH]; intros epoch st st' out Hst Hloop;
    cbn [loop] in Hloop.
  - injection Hloop as <- _. exact Hst.
  - assert (H1 : best_val_loss (update min_delta st epoch l) <> nan).
    { unfold update. destruct (improves min_delta st l) eqn:E;
        cbn [best_val_loss]; [|exact Hst].
      intros ->. unfold improves in E. rewrite nan_not_below in E. discriminate. }
    destruct (triggered patience (update min_delta st epoch l)).
    + injection Hloop as <- _. exact H1.
    + exact (IH _ _ _ _ H1 Hloop).
Qed.

(** X4: a NaN validation loss never counts as an improvement: the epoch
    increments the counter and leaves best loss and checkpoint alone; so at
    the end of training the best loss is not NaN, and neither is the loss
    of the checkpointed epoch. *)
Theorem train_never_records_nan
    (patience : Z) (min_delta : float) (val_losses : list float)
    (st : state) (out : outcome) :
  train patience min_delta val_losses = (st, out) ->
  (forall st0 epoch,
     update min_delta st0 epoch nan
     = mkState (best_val_loss st0) (patience_counter st0 + 1) (checkpoint st0)) /\
  best_val_loss st <> nan /\
  match checkpoint st with
  | Some c => exists l, nth_error val_losses c = Some l /\ l <> nan
  | None => True
  end.
Proof.
  intros Hloop.
  assert (Hbest : best_val_loss st <> nan).
  { refine (loop_best_not_nan _ _ _ _ _ _ _ _ Hloop).
    intros E. apply (f_equal is_infinity) in E. vm_compute in E. discriminate E. }
  split; [|split; [exact Hbest|]].
  - intros st0 epoch. unfold update, improves. now rewrite nan_not_below.
  - destruct (train_consistent _ _ _ _ _ Hloop) as (done & later & -> & Hcons & _).
    unfold consistent in Hcons.
    destruct (checkpoint st) as [c|]; [|exact I].
    destruct Hcons as [_ H2]. exists (best_val_loss st). split; [|exact Hbest].
    rewrite nth_error_app1; [exact H2|].
    apply nth_error_Some. rewrite H2. discriminate.
Qed.

Lemma train_never_records_nan_witness :
  best_val_loss (mkState 1%float 2 (Some 1%nat)) <> nan /\
  exists l, nth_error [3; 1; nan; nan; 0.125]%float 1 = Some l /\ l <> nan.
Proof.
  apply (train_never_records_nan 2 0.5%float [3; 1; nan; nan; 0.125]%float
           (mkState 1%float 2 (Some 1%nat)) (EarlyStopped 3)).
  reflexivity.
Defined.

End EarlyStoppingInvariants.

(** ** More on the tokenizer, the padding and the decoder *)

Module TokenizerMore.
Import PyStr PyStrFacts Vocab Tokenizer TokenizerFacts Corpus.
Local Open Scope string_scope.

Lemma no_whitespace_append (a b : string) :
  no_whitespace (a ++ b) = no_whitespace a && no_whitespace b.
Proof.
  induction a as [|c a IH]; cbn [append no_whitespace]; [reflexivity|].
  now rewrite IH, andb_assoc.
Qed.

(** The words of [split] are not empty and hold no whitespace. *)
Lemma split_scan_words (s : string) : forall word,
  no_whitespace word = true ->
  Forall (fun token => token <> "" /\ no_whitespace token = true)
         (split_scan word s).
Proof.
  induction s as [|c s IH]; intros word Hword; cbn [split_scan].
  - destruct word; constructor; [split; [discriminate | exact Hword] | constructor].
  - destruct (isspace c) eqn:Hc.
    + destruct word as [|a word]; [now apply IH|].
      constructor; [split; [discriminate | exact Hword] | now apply IH].
    + apply IH. rewrite no_whitespace_append, Hword. cbn. now rewrite Hc.
Qed.

(** X5: every token that [custom_tokenizer] returns is non-empty and free
    of whitespace, whatever the custom tokens and the string. *)
Theorem custom_tokenizer_tokens (custom_tokens : list string) (smiles : string) :
  Forall (fun token => token <> "" /\ no_whitespace token = true)
         (custom_tokenizer custom_tokens smiles).
Proof. unfold custom_tokenizer, split. now apply split_scan_words. Qed.

Lemma split_scan_single (s : string) : forall word,
  no_whitespace s = true -> (word ++ s) <> "" ->
  split_scan word s = [word ++ s].
Proof.
  induction s as [|c s IH]; intros word Hs Hne; cbn [split_scan].
  - rewrite append_empty_r in *. now destruct word.
  - cbn [no_whitespace] in Hs. apply andb_prop in Hs as [Hc Hs].
    apply negb_true_iff in Hc. rewrite Hc.
    rewrite IH; [now rewrite append_assoc | exact Hs |].
    rewrite append_assoc. exact Hne.
Qed.

(** X6: a string in which no custom token occurs is a single token: the
    whole string (no token at all for the empty string). *)
Theorem custom_tokenizer_nothing_occurs (custom_tokens : list string) (smiles : string) :
  Forall (fun token => contains token smiles = false) custom_tokens ->
  no_whitespace smiles = true ->
  custom_tokenizer custom_tokens smiles
  = match smiles with EmptyString => [] | _ => [smiles] end.
Proof.
  intros Hnone Hs. unfold custom_tokenizer.
  assert (Hfold : fold_left bracket custom_tokens smiles = smiles).
  { induction Hnone as [|token rest Ht _ IH]; [reflexivity|].
    cbn [fold_left]. unfold bracket at 2. now rewrite Ht. }
  rewrite Hfold. destruct smiles as [|c smiles]; [reflexivity|].
  unfold split. now rewrite split_scan_single.
Qed.

Lemma custom_tokenizer_nothing_occurs_witness :
  custom_tokenizer ["Cl"; "Br"] "CCO" = ["CCO"].
Proof.
  apply (custom_tokenizer_nothing_occurs ["Cl"; "Br"] "CCO").
  - repeat constructor.
  - reflexivity.
Defined.

Lemma list_mul_singleton {A : Type} (x : A) (n : Z) :
  list_mul [x] n = repeat x (Z.to_nat n).
Proof.
  unfold list_mul. destruct (Z.leb_spec n 0) as [H0|H0].
  - now replace (Z.to_nat n) with 0%nat by lia.
  - induction (Z.to_nat n) as [|k IH]; simpl; [reflexivity | now rewrite IH].
Qed.

Lemma pad_sequence_repeat_to (vocab_tokens : list string) (seq : list Z) (L : Z) :
  pad_sequence vocab_tokens seq L
  = (seq ++ repeat 0%Z (Z.to_nat (L - Z.of_nat (List.length seq))))%list.
Proof. unfold pad_sequence. now rewrite list_mul_singleton. Qed.

(** X7: padding twice is padding once to the larger length; in particular
    padding again to the same length changes nothing. *)
Theorem pad_sequence_twice (vocab_tokens : list string) (seq : list Z) (L1 L2 : Z) :
  pad_sequence vocab_tokens (pad_sequence vocab_tokens seq L1) L2
  = pad_sequence vocab_tokens seq (Z.max L1 L2) /\
  pad_sequence vocab_tokens (pad_sequence vocab_tokens seq L1) L1
  = pad_sequence vocab_tokens seq L1.
Proof.
  assert (H : forall a b,
             pad_sequence vocab_tokens (pad_sequence vocab_tokens seq a) b
             = pad_sequence vocab_tokens seq (Z.max a b)).
  { intros a b. rewrite !pad_sequence_repeat_to, <- app_assoc, <- repeat_app.
    rewrite length_app, repeat_length. do 2 f_equal. lia. }
  split; [apply H|]. rewrite H. now rewrite Z.max_id.
Qed.

Lemma index_from_bound (token : string) (tokens : list string) : forall i j,
  index_from i token tokens = Some j ->
  (i <= j < i + Z.of_nat (List.length tokens))%Z.
Proof.
  induction tokens as [|t rest IH]; intros i j H; cbn [index_from] in H.
  - discriminate.
  - cbn [List.length]. destruct (t =? token)%string.
    + injection H as <-. lia.
    + apply IH in H. lia.
Qed.

Lemma getitem_in_range (vocab_tokens : list string) (token : string) :
  (0 <= getitem (vocab vocab_tokens) token < len (vocab vocab_tokens))%Z.
Proof.
  assert (Hlen : (4 <= len (vocab vocab_tokens))%Z).
  { unfold len, vocab, build. cbn [itos]. rewrite length_app. cbn. lia. }
  unfold getitem, stoi.
  destruct (index_from 0 token (itos (vocab vocab_tokens))) as [j|] eqn:E.
  - apply index_from_bound in E. unfold len. lia.
  - change (default_index (vocab vocab_tokens)) with 1%Z. lia.
Qed.

(** X8: every id of an encoded and padded string is an index of the
    vocabulary, so the embedding layer can look it up. *)
Theorem smiles_to_padded_tensor_in_range
    (custom_tokens vocab_tokens : list string) (max_len : Z) (smiles : string) :
  Forall (fun id => (0 <= id < len (vocab vocab_tokens))%Z)
         (smiles_to_padded_tensor custom_tokens vocab_tokens max_len smiles).
Proof.
  unfold smiles_to_padded_tensor. rewrite pad_sequence_repeat_to.
  apply Forall_app. split.
  - unfold encode_smiles_to_indices. repeat (apply Forall_app; split).
    + constructor; [apply getitem_in_range | constructor].
    + apply Forall_forall. intros id Hid. apply in_map_iff in Hid as (t & <- & _).
      apply getitem_in_range.
    + constructor; [apply getitem_in_range | constructor].
  - apply Forall_forall. intros id Hid. apply repeat_spec in Hid as ->.
    apply (getitem_in_range vocab_tokens "<pad>").
Qed.

Lemma fold_max_ge (lengths : list Z) : forall n,
  (n <= fold_left Z.max lengths n)%Z /\
  Forall (fun k => (k <= fold_left Z.max lengths n)%Z) lengths /\
  (fold_left Z.max lengths n = n \/ In (fold_left Z.max lengths n) lengths).
Proof.
  induction lengths as [|k lengths IH]; intros n; cbn [fold_left].
  - repeat split; [lia | constructor | now left].
  - destruct (IH (Z.max n k)) as (H1 & H2 & H3). repeat split.
    + lia.
    + constructor; [lia | exact H2].
    + destruct H3 as [H3|H3]; [|right; now right].
      rewrite H3. destruct (Z.max_spec n k) as [[_ ->]|[_ ->]]; [right; now left | now left].
Qed.

(** X9: when [max_len] is the maximum over the training strings, every
    training string is padded to exactly [max_len] ids, [max_len] is at
    least 2, and some training string needs no padding at all.  (Over an
    empty training list [max] raises a [ValueError].) *)
Theorem max_len_pads_training
    (custom_tokens vocab_tokens smiles_training : list string) (m : Z) :
  max_len custom_tokens vocab_tokens smiles_training = Exn.Ok m ->
  (2 <= m)%Z /\
  Forall (fun smile =>
            Z.of_nat (List.length
                        (smiles_to_padded_tensor custom_tokens vocab_tokens m smile)) = m)
         smiles_training /\
  Exists (fun smile =>
            smiles_to_padded_tensor custom_tokens vocab_tokens m smile
            = encode_smiles_to_indices custom_tokens vocab_tokens smile)
         smiles_training.
Proof.
  unfold max_len.
  set (size := fun smile =>
         Z.of_nat (List.length (encode_smiles_to_indices custom_tokens vocab_tokens smile))).
  assert (Hsize : forall smile, (2 <= size smile)%Z).
  { intros smile. unfold size, encode_smiles_to_indices.
    cbn [app List.length]. rewrite length_app. cbn [List.length]. lia. }
  assert (Hpad : forall smile L,
             (size smile <= L)%Z ->
             Z.of_nat (List.length
                         (smiles_to_padded_tensor custom_tokens vocab_tokens L smile)) = L).
  { intros smile L HL. unfold smiles_to_padded_tensor.
    rewrite pad_sequence_repeat_to, length_app, repeat_length.
    unfold size in HL. lia. }
  assert (Hexact : forall smile,
             smiles_to_padded_tensor custom_tokens vocab_tokens (size smile) smile
             = encode_smiles_to_indices custom_tokens vocab_tokens smile).
  { intros smile. unfold smiles_to_padded_tensor.
    rewrite pad_sequence_repeat_to. unfold size.
    rewrite Z.sub_diag. cbn [Z.to_nat repeat]. apply app_nil_r. }
  destruct smiles_training as [|s0 rest]; cbn [map]; [discriminate|].
  intros H. injection H as <-.
  destruct (fold_max_ge (map size rest) (size s0)) as (H1 & H2 & H3).
  set (m := fold_left Z.max (map size rest) (size s0)) in *.
  split; [specialize (Hsize s0); lia|]. split.
  - constructor; [now apply Hpad|].
    apply Forall_forall. intros smile Hin. apply Hpad.
    rewrite Forall_forall in H2. apply H2. now apply in_map.
  - destruct H3 as [H3|H3].
    + apply Exists_cons_hd. rewrite H3. apply Hexact.
    + apply Exists_cons_tl. apply in_map_iff in H3 as (smile & Hs & Hin).
      apply Exists_exists. exists smile. split; [exact Hin|].
      rewrite <- Hs. apply Hexact.
Qed.

Lemma max_len_pads_training_witness :
  (2 <= 5)%Z /\
  Forall (fun smile =>
            Z.of_nat (List.length
                        (smiles_to_padded_tensor ["C"; "O"] ["C"; "O"] 5 smile)) = 5%Z)
         ["CO"; "CCO"; "C"] /\
  Exists (fun smile =>
            smiles_to_padded_tensor ["C"; "O"] ["C"; "O"] 5 smile
            = encode_smiles_to_indices ["C"; "O"] ["C"; "O"] smile)
         ["CO"; "CCO"; "C"].
Proof.
  apply (max_len_pads_training ["C"; "O"] ["C"; "O"] ["CO"; "CCO"; "C"] 5).
  reflexivity.
Defined.

Lemma remove_spaces_lstrip (s : string) : remove_spaces (lstrip s) = remove_spaces s.
Proof.
  induction s as [|c s IH]; cbn [lstrip remove_spaces]; [reflexivity|].
  destruct (isspace c) eqn:Hc; [exact IH|].
  cbn [remove_spaces]. now rewrite Hc.
Qed.

Lemma remove_spaces_rstrip (s : string) : remove_spaces (rstrip s) = remove_spaces s.
Proof.
  induction s as [|c s IH]; cbn [rstrip remove_spaces]; [reflexivity|].
  destruct (rstrip s) as [|a r].
  - cbn [remove_spaces] in IH. rewrite <- IH.
    destruct (isspace c) eqn:Hc; cbn [remove_spaces]; [reflexivity | now rewrite Hc].
  - cbn [remove_spaces] in *. now rewrite IH.
Qed.

Lemma split_blank (s : string) : split s = [] <-> blank s.
Proof.
  unfold blank. rewrite <- join_split. split.
  - now intros ->.
  - pose proof (split_scan_words s "" eq_refl) as H. fold (split s) in H.
    destruct (split s) as [|w ws]; [reflexivity|].
    apply Forall_cons_iff in H as [[Hne _] _].
    rewrite join_cons. destruct w; [now contradiction Hne | discriminate].
Qed.

Lemma blank_strip (line : string) : blank (strip line) <-> blank line.
Proof.
  unfold blank, strip. now rewrite remove_spaces_rstrip, remove_spaces_lstrip.
Qed.

Lemma split_lstrip (s : string) : split (lstrip s) = split s.
Proof.
  unfold split. induction s as [|c s IH]; cbn [lstrip split_scan]; [reflexivity|].
  destruct (isspace c) eqn:Hc; [exact IH|].
  cbn [split_scan]. now rewrite Hc.
Qed.

Lemma split_scan_rstrip (s : string) : forall word,
  split_scan word (rstrip s) = split_scan word s.
Proof.
  induction s as [|c s IH]; intros word; cbn [rstrip]; [reflexivity|].
  destruct (rstrip s) as [|a r]; destruct (isspace c) eqn:Hc;
    cbn [split_scan]; rewrite ?Hc.
  - rewrite <- (IH ""). cbn [split_scan]. now destruct word.
  - now rewrite <- IH.
  - now rewrite <- (IH "").
  - now rewrite <- IH.
Qed.

Lemma split_strip (s : string) : split (strip s) = split s.
Proof. unfold strip, split. rewrite split_scan_rstrip. exact (split_lstrip s). Qed.

(** X10: loading the custom tokens returns one token per line, the first
    whitespace-separated field of the line, which is non-empty and free of
    whitespace; it raises, and then an [IndexError], exactly when some line
    of the file is blank. *)
Theorem load_custom_tokens_spec (lines : list string) :
  match load_custom_tokens lines with
  | Raising.Return tokens =>
      Forall (fun line => ~ blank line) lines /\
      Forall2 (fun line token => exists others, split line = token :: others)
              lines tokens /\
      Forall (fun token => token <> "" /\ no_whitespace token = true) tokens
  | Raising.Throw e => e = Raising.IndexError /\ Exists blank lines
  end.
Proof.
  induction lines as [|line rest IH]; cbn [load_custom_tokens].
  - repeat split; constructor.
  - pose proof (split_scan_words (strip line) "" eq_refl) as Hwords.
    fold (split (strip line)) in Hwords.
    destruct (split (strip line)) as [|token others] eqn:E.
    + split; [reflexivity|]. apply Exists_cons_hd.
      apply blank_strip, split_blank. exact E.
    + assert (Hline : ~ blank line).
      { intros Hb. apply blank_strip, split_blank in Hb. congruence. }
      apply Forall_cons_iff in Hwords as [Htoken _].
      destruct (load_custom_tokens rest) as [tokens|e].
      * destruct IH as (H1 & H2 & H3). repeat split.
        -- now constructor.
        -- constructor; [|exact H2]. exists others. now rewrite <- split_strip.
        -- now constructor.
      * destruct IH as [-> Hex]. split; [reflexivity | now apply Exists_cons_tl].
Qed.

End TokenizerMore.

(** ** More on the decoder *)

Module DecodingMore.
Import PyStr PyStrFacts Vocab Tokenizer TokenizerFacts TokenizerMore Exn
       Evaluation EvaluationFacts.
Local Open Scope string_scope.

(** What the three replacements leave of a sequence of blocks without
    ["<eos>"]. *)
Lemma strip_specials_blocks (kept : list string) :
  Forall block kept ->
  Forall (fun token => (token =? "<eos>")%string = false) kept ->
  strip_specials (join kept) = join (filter not_pad_sos kept).
Proof.
  intros Hb Hne.
  assert (Hfilter : forall (p : string -> bool) (l : list string),
             Forall block l -> Forall block (filter p l)).
  { intros p l Hl. rewrite Forall_forall in *. intros t Ht.
    apply filter_In in Ht. now apply Hl. }
  unfold strip_specials.
  rewrite (replace_blocks "<pad>"), (replace_blocks "<sos>"), (replace_blocks "<eos>");
    simpl; auto.
  f_equal. clear - Hne. induction kept as [|t kept IH]; [reflexivity|].
  apply Forall_cons_iff in Hne as [Ht Hk]. cbn [filter]. unfold not_pad_sos at 1.
  destruct (t =? "<pad>")%string; cbn [negb andb filter]; [now apply IH|].
  destruct (t =? "<sos>")%string; cbn [negb andb filter]; [now apply IH|].
  rewrite Ht. cbn [negb]. now rewrite IH.
Qed.

Lemma block_in_vocab (vocab_tokens : list string) (token : string) :
  Forall (fun t => lacks "<" t = true) vocab_tokens ->
  In token (itos (vocab vocab_tokens)) -> block token.
Proof.
  intros Hvocab Hin. apply in_app_or in Hin as [Hin|Hin]; [now left | right].
  rewrite Forall_forall in Hvocab. now apply Hvocab.
Qed.

(** The decoded string, from the tokens of the output ids. *)
Lemma decode_output_tokens (vocab_tokens : list string)
    (output_tokens : list Z) (tokens : list string) :
  Forall (fun t => lacks "<" t = true) vocab_tokens ->
  Forall2 (fun i token => lookup_token (vocab vocab_tokens) i = Some token)
          output_tokens tokens ->
  decode_output vocab_tokens output_tokens
  = Ok (join (filter not_pad_sos (before_eos tokens))).
Proof.
  intros Hvocab Hlook.
  assert (Hin : Forall (fun token => In token (itos (vocab vocab_tokens))) tokens).
  { clear Hvocab. induction Hlook as [|i token ids tokens Hi _ IH]; constructor; [|exact IH].
    unfold lookup_token in Hi. destruct (i <? 0)%Z; [discriminate|].
    eapply nth_error_In; eassumption. }
  assert (Hblock : Forall block tokens).
  { eapply Forall_impl; [|exact Hin]. intros t. now apply block_in_vocab. }
  apply Forall_before_eos in Hblock.
  unfold decode_output. rewrite (decode_loop_before_eos _ _ _ Hlook). cbn [bind app].
  rewrite strip_specials_blocks; [reflexivity | |].
  - eapply Forall_impl; [|exact Hblock]. now intros t [Ht _].
  - eapply Forall_impl; [|exact Hblock]. now intros t [_ Ht].
Qed.

Lemma filter_before_eos_pads (tokens : list string) (n : nat) :
  filter not_pad_sos (before_eos (tokens ++ repeat "<pad>" n))
  = filter not_pad_sos (before_eos tokens).
Proof.
  induction tokens as [|t tokens IH]; cbn [app before_eos].
  - induction n as [|n IHn]; [reflexivity | exact IHn].
  - destruct (t =? "<eos>")%string; [reflexivity|].
    cbn [filter]. now rewrite IH.
Qed.

(** X11: padding does not show in the decoded string: for output ids
    within the vocabulary, whose tokens (the specials apart) hold no ["<"],
    the ids padded to any length decode to the same string as the ids
    themselves. *)
Theorem decode_output_ignores_padding
    (vocab_tokens : list string) (output_tokens : list Z) (L : Z) :
  Forall (fun token => lacks "<" token = true) vocab_tokens ->
  Forall (fun i => (0 <= i < len (vocab vocab_tokens))%Z) output_tokens ->
  decode_output vocab_tokens (pad_sequence vocab_tokens output_tokens L)
  = decode_output vocab_tokens output_tokens /\
  exists decoded_smiles, decode_output vocab_tokens output_tokens = Ok decoded_smiles.
Proof.
  intros Hvocab Hrange.
  destruct (lookup_token_in_range _ _ Hrange) as (tokens & Hlook & _).
  rewrite pad_sequence_repeat_to.
  set (n := Z.to_nat (L - Z.of_nat (List.length output_tokens))).
  assert (Hpads : Forall2 (fun i token => lookup_token (vocab vocab_tokens) i = Some token)
                    (repeat 0%Z n) (repeat "<pad>" n)).
  { induction n as [|k IH]; constructor; [reflexivity | exact IH]. }
  rewrite (decode_output_tokens _ _ _ Hvocab (Forall2_app Hlook Hpads)).
  rewrite (decode_output_tokens _ _ _ Hvocab Hlook).
  rewrite filter_before_eos_pads. split; [reflexivity | eexists; reflexivity].
Qed.

Lemma decode_output_ignores_padding_witness :
  decode_output ["C"; "O"] (pad_sequence ["C"; "O"] [2; 4; 5]%Z 7)
  = decode_output ["C"; "O"] [2; 4; 5]%Z /\
  exists decoded_smiles, decode_output ["C"; "O"] [2; 4; 5]%Z = Ok decoded_smiles.
Proof.
  apply (decode_output_ignores_padding ["C"; "O"] [2; 4; 5]%Z 7).
  - repeat constructor.
  - repeat constructor; simpl; lia.
Defined.

Lemma before_eos_at_eos (tokens rest : list string) :
  Forall (fun token => (token =? "<eos>")%string = false) tokens ->
  before_eos (tokens ++ "<eos>" :: rest) = tokens.
Proof.
  induction 1 as [|t tokens Ht _ IH]; cbn [app before_eos].
  - reflexivity.
  - now rewrite Ht, IH.
Qed.

(** X12: encoding, padding and decoding give the string back when the
    model returns its input ids: for a string without whitespace whose tokens
    are all in the vocabulary, the vocabulary holding no ["<"] outside its
    specials, [decode_sequence(smiles_to_padded_tensor(smiles))] is
    [smiles], for every [max_len]. *)
Theorem decode_encode_round_trip
    (custom_tokens vocab_tokens : list string) (max_len : Z) (smiles : string) :
  no_whitespace smiles = true ->
  Forall (fun token => lacks "<" token = true) vocab_tokens ->
  Forall (fun token => In token vocab_tokens) (custom_tokenizer custom_tokens smiles) ->
  decode_sequence vocab_tokens (fun input_seq => input_seq)
    (smiles_to_padded_tensor custom_tokens vocab_tokens max_len smiles)
  = Ok smiles.
Proof.
  intros Hs Hvocab Hknown.
  unfold decode_sequence, smiles_to_padded_tensor.
  rewrite pad_sequence_repeat_to.
  set (n := Z.to_nat (max_len - _)). unfold encode_smiles_to_indices.
  set (tokens := custom_tokenizer custom_tokens smiles) in *.
  assert (Hpads : Forall2 (fun i token => lookup_token (vocab vocab_tokens) i = Some token)
                    (repeat 0%Z n) (repeat "<pad>" n)).
  { clear. induction n as [|k IH]; constructor; [reflexivity | exact IH]. }
  assert (Hlook : Forall2 (fun i token => lookup_token (vocab vocab_tokens) i = Some token)
                    (map (getitem (vocab vocab_tokens)) tokens) tokens).
  { clear - Hknown. induction Hknown as [|t tokens Ht _ IH]; constructor; [|exact IH].
    destruct (getitem_spec vocab_tokens t) as [[_ H]|[H _]]; [exact H|].
    contradiction H. apply in_or_app. now right. }
  assert (Hall : Forall2 (fun i token => lookup_token (vocab vocab_tokens) i = Some token)
                   (([getitem (vocab vocab_tokens) "<sos>"]
                     ++ map (getitem (vocab vocab_tokens)) tokens
                     ++ [getitem (vocab vocab_tokens) "<eos>"])
                    ++ repeat 0%Z n)%list
                   (("<sos>" :: tokens ++ ["<eos>"]) ++ repeat "<pad>" n)%list).
  { apply Forall2_app; [|exact Hpads].
    constructor; [reflexivity|]. apply Forall2_app; [exact Hlook|].
    constructor; [reflexivity | constructor]. }
  rewrite (decode_output_tokens _ _ _ Hvocab Hall).
  assert (Hplain : Forall (fun token => lacks "<" token = true) tokens).
  { rewrite Forall_forall in *. intros t Ht. apply Hvocab, Hknown, Ht. }
  assert (Hne : Forall (fun token => (token =? "<eos>")%string = false) tokens).
  { eapply Forall_impl; [|exact Hplain]. intros t. apply block_neq. }
  change (("<sos>" :: tokens ++ ["<eos>"]) ++ repeat "<pad>" n)%list
    with ("<sos>" :: (tokens ++ ["<eos>"]) ++ repeat "<pad>" n)%list.
  rewrite <- app_assoc. cbn [before_eos String.eqb Ascii.eqb Bool.eqb app].
  rewrite (before_eos_at_eos _ _ Hne).
  cbn [filter not_pad_sos]. change (not_pad_sos "<sos>") with false. cbv iota.
  assert (Hkeep : filter not_pad_sos tokens = tokens).
  { clear - Hplain. induction Hplain as [|t tokens Ht _ IH]; [reflexivity|].
    cbn [filter]. unfold not_pad_sos at 1.
    rewrite !(block_neq _ _ Ht). cbn [negb andb]. now rewrite IH. }
  rewrite Hkeep. unfold tokens, custom_tokenizer.
  rewrite join_split, fold_bracket_remove_spaces.
  now rewrite remove_spaces_id.
Qed.

Lemma decode_encode_round_trip_witness :
  decode_sequence ["CC"; "O"; "N"; "(C)"] (fun input_seq => input_seq)
    (smiles_to_padded_tensor ["CC"; "O"; "(C)"] ["CC"; "O"; "N"; "(C)"] 9 "CCO(C)N")
  = Ok "CCO(C)N".
Proof.
  apply decode_encode_round_trip.
  - reflexivity.
  - repeat constructor.
  - repeat constructor; simpl; tauto.
Defined.

End DecodingMore.

(** ** More on the evaluator *)

Module EvaluationMore.
Import PyStr PyStrFacts Vocab Tokenizer Exn Evaluation EvaluationFacts.
Local Open Scope string_scope.

Section Notebook.

Variable custom_tokens : list string.
Variable vocab_tokens : list string.
Variable max_len : Z.
Variable model_argmax : list Z -> list Z.

(** Decoding raises nothing but the [RuntimeError] of [lookup_token]. *)
Lemma decode_sequence_raises (input_seq : list Z) (e : exn) :
  decode_sequence vocab_tokens model_argmax input_seq = Raise e -> e = RuntimeError.
Proof.
  unfold decode_sequence, decode_output.
  generalize (@nil string). induction (model_argmax input_seq) as [|i ids IH];
    intros decoded_tokens; cbn [decode_loop bind].
  - discriminate.
  - destruct (lookup_token (vocab vocab_tokens) i) as [token|]; [|now intros [= <-]].
    destruct (token =? "<eos>")%string; [discriminate | apply IH].
Qed.

(** Two steps of the evaluation loop can be exchanged. *)
Lemma count_comm (c : counters) (s1 d1 s2 d2 : string) :
  count (count c s1 d1) s2 d2 = count (count c s2 d2) s1 d1.
Proof.
  unfold count.
  destruct (s1 =? d1)%string, (s2 =? d2)%string;
    cbn [correct_count total_levenshtein_distance total_mismatched_smiles_length
         mismatched_count]; f_equal; lia.
Qed.

Lemma evaluate_loop_permutation (l1 l2 : list string) :
  Permutation l1 l2 ->
  forall c,
    evaluate_loop custom_tokens vocab_tokens max_len model_argmax l1 c
    = evaluate_loop custom_tokens vocab_tokens max_len model_argmax l2 c.
Proof.
  induction 1 as [|x l1 l2 _ IH|x y l|l1 l2 l3 _ IH1 _ IH2]; intros c.
  - reflexivity.
  - cbn [evaluate_loop].
    destruct (decode_sequence _ _ _) as [d|e]; cbn [bind]; [apply IH | reflexivity].
  - cbn [evaluate_loop].
    destruct (decode_sequence vocab_tokens model_argmax
                (smiles_to_padded_tensor custom_tokens vocab_tokens max_len x))
      as [dx|ex] eqn:Ex;
    destruct (decode_sequence vocab_tokens model_argmax
                (smiles_to_padded_tensor custom_tokens vocab_tokens max_len y))
      as [dy|ey] eqn:Ey; cbn [bind]; rewrite ?Ex, ?Ey; cbn [bind]; try reflexivity.
    + now rewrite count_comm.
    + apply decode_sequence_raises in Ex, Ey. now subst.
  - now rewrite IH1, IH2.
Qed.

(** X13: the result of [evaluate_reconstruction] does not depend on the
    order of the strings, nor on [print_mismatches]. *)
Theorem evaluate_reconstruction_permutation
    (l1 l2 : list string) (print1 print2 : bool) :
  Permutation l1 l2 ->
  evaluate_reconstruction custom_tokens vocab_tokens max_len model_argmax l1 print1
  = evaluate_reconstruction custom_tokens vocab_tokens max_len model_argmax l2 print2.
Proof.
  intros Hperm. unfold evaluate_reconstruction.
  rewrite (evaluate_loop_permutation _ _ Hperm).
  now rewrite (Permutation_length Hperm).
Qed.

(** The loop returns for a list whose decodings all return, and raises a
    [RuntimeError] otherwise. *)
Lemma evaluate_loop_cases (smiles_list : list string) :
  (exists decoded,
     decodes_to custom_tokens vocab_tokens max_len model_argmax smiles_list decoded) \/
  (forall c,
     evaluate_loop custom_tokens vocab_tokens max_len model_argmax smiles_list c
     = Raise RuntimeError).
Proof.
  induction smiles_list as [|smiles rest IH].
  - left. exists []. constructor.
  - destruct (decode_sequence vocab_tokens model_argmax
                (smiles_to_padded_tensor custom_tokens vocab_tokens max_len smiles))
      as [d|e] eqn:E.
    + destruct IH as [[decoded H]|H].
      * left. exists (d :: decoded). now constructor.
      * right. intros c. cbn [evaluate_loop]. rewrite E. cbn [bind]. apply H.
    + right. intros c. cbn [evaluate_loop]. rewrite E. cbn [bind].
      apply decode_sequence_raises in E. now subst.
Qed.

(** X14: [evaluate_reconstruction] raises a [ZeroDivisionError] exactly on
    the empty list; on any other list it returns, or raises the
    [RuntimeError] of a model output outside the vocabulary. *)
Theorem evaluate_reconstruction_errors (smiles_list : list string) (print_mismatches : bool) :
  (evaluate_reconstruction custom_tokens vocab_tokens max_len model_argmax
     smiles_list print_mismatches = Raise ZeroDivisionError
   <-> smiles_list = []) /\
  match evaluate_reconstruction custom_tokens vocab_tokens max_len model_argmax
          smiles_list print_mismatches with
  | Ok _ => smiles_list <> []
  | Raise e => e = ZeroDivisionError \/ e = RuntimeError
  end.
Proof.
  destruct smiles_list as [|smiles rest].
  - split; [split; reflexivity | now left].
  - set (smiles_list := smiles :: rest).
    assert (Hne : smiles_list <> []) by discriminate.
    destruct (evaluate_loop_cases smiles_list) as [[decoded Hdec]|Hraise].
    + unfold evaluate_reconstruction.
      rewrite (evaluate_loop_counts _ _ _ _ _ _ Hdec). cbn [bind].
      cbn [correct_count total_levenshtein_distance total_mismatched_smiles_length
           mismatched_count].
      unfold truediv at 1.
      destruct (Z.eqb_spec (Z.of_nat (List.length smiles_list)) 0) as [H0|_];
        [discriminate H0|].
      cbn [bind].
      destruct (Z.gtb_spec
                  (0 + Z.of_nat (List.length (filter mismatch (combine smiles_list decoded)))) 0)
        as [Hpos|Hzero].
      * unfold truediv.
        destruct (Z.eqb_spec
                    (0 + Z.of_nat (List.length (filter mismatch (combine smiles_list decoded)))) 0)
          as [H0|_]; [lia|].
        cbn [bind]. split; [split; [discriminate | intros H; discriminate H] | exact Hne].
      * split; [split; [discriminate | intros H; discriminate H] | exact Hne].
    + unfold evaluate_reconstruction. rewrite Hraise. cbn [bind].
      split; [split; [discriminate | intros H; discriminate H] | now right].
Qed.






End Notebook.

Lemma evaluate_reconstruction_permutation_witness :
  evaluate_reconstruction ["C"; "O"] ["C"; "O"] 6 (fun ids => ids) ["CO"; "CN"] false
  = evaluate_reconstruction ["C"; "O"] ["C"; "O"] 6 (fun ids => ids) ["CN"; "CO"] true.
Proof.
  apply evaluate_reconstruction_permutation. apply perm_swap.
Defined.


End EvaluationMore.

(** ** Sizes of the gene-expression models *)

Module ModelsFacts.
Import Raising Models.

(** X16: the head size of [MultiHeadAttention] is computed without error
    exactly when [num_heads] is not 0 and divides [embed_dim]; then
    [head_dim * num_heads = embed_dim], which also makes the reshaping of
    the projected input into [num_heads] heads of [3 * head_dim] exact.
    With [num_heads = 0] the division raises, otherwise the assertion. *)
Theorem attention_head_dim_spec (embed_dim num_heads : Z) :
  match attention_head_dim embed_dim num_heads with
  | Return head_dim =>
      num_heads <> 0%Z /\ (embed_dim mod num_heads = 0)%Z /\
      (head_dim * num_heads = embed_dim)%Z /\
      (num_heads * (3 * head_dim) = embed_dim * 3)%Z
  | Throw ZeroDivisionError => num_heads = 0%Z
  | Throw AssertionError => num_heads <> 0%Z /\ (embed_dim mod num_heads <> 0)%Z
  | Throw _ => False
  end.
Proof.
  unfold attention_head_dim, floordiv.
  destruct (Z.eqb_spec num_heads 0) as [H0|H0]; [exact H0|].
  pose proof (Z.div_mod embed_dim num_heads H0) as Hdm.
  destruct (Z.eqb_spec (embed_dim / num_heads * num_heads) embed_dim) as [He|He].
  - repeat split; [exact H0 | lia | exact He | lia].
  - split; [exact H0 | lia].
Qed.

Lemma linear_sizes_cons (a b : Z) (rest : list Z) :
  linear_sizes (a :: b :: rest) = (a, b) :: linear_sizes (b :: rest).
Proof.
  unfold linear_sizes. cbn [List.length Nat.sub seq map nth Nat.add].
  rewrite Nat.sub_0_r. f_equal. rewrite <- seq_shift, map_map.
  apply map_ext. intros i. reflexivity.
Qed.

Lemma last_cons (l : list Z) : forall x d, last (x :: l) d = last l x.
Proof.
  induction l as [|y l IH]; intros x d; [reflexivity|].
  change (last (x :: y :: l) d) with (last (y :: l) d).
  change (last (y :: l) x) with (match l with [] => y | _ => last l x end).
  rewrite IH. destruct l; [reflexivity|]. now rewrite <- (IH y x).
Qed.

(** A chain of layers built from a list of sizes leads from its first size
    to its last. *)
Lemma width_after_linear_sizes (rest : list Z) : forall (a : Z) (more : list (Z * Z)),
  width_after (linear_sizes (a :: rest) ++ more) a
  = width_after more (last rest a).
Proof.
  induction rest as [|b rest IH]; intros a more.
  - reflexivity.
  - rewrite linear_sizes_cons. cbn [app width_after]. rewrite Z.eqb_refl, IH.
    now rewrite last_cons.
Qed.

(** X17: for a non-empty [hidden_dims] the layers of [Autoencoder] fit one
    another: there are two per hidden size plus two, and a batch of width
    [input_dim] passes through all of them and comes out with width
    [input_dim]; with an empty [hidden_dims] the constructor raises an
    [IndexError]. *)
Theorem autoencoder_sizes_fit (input_dim : Z) (hidden_dims : list Z) (latent_dim : Z) :
  match autoencoder_sizes input_dim hidden_dims latent_dim with
  | Return layers =>
      hidden_dims <> [] /\
      List.length layers = (2 * List.length hidden_dims + 2)%nat /\
      width_after layers input_dim = Some input_dim
  | Throw e => e = IndexError /\ hidden_dims = []
  end.
Proof.
  unfold autoencoder_sizes.
  destruct hidden_dims as [|h0 rest]; [split; reflexivity|].
  set (hidden_dims := h0 :: rest).
  assert (Hlast : getitem hidden_dims (-1) = Return (last hidden_dims h0)).
  { unfold getitem. cbn [Z.ltb Z.compare].
    assert (Hlen : (0 < List.length hidden_dims)%nat) by (cbn; lia).
    destruct (Z.ltb_spec (-1 + Z.of_nat (List.length hidden_dims)) 0) as [|_]; [lia|].
    replace (Z.to_nat (-1 + Z.of_nat (List.length hidden_dims)))
      with (List.length hidden_dims - 1)%nat by lia.
    clearbody hidden_dims. clear - Hlen.
    induction hidden_dims as [|x l IH]; [cbn in Hlen; lia|].
    destruct l as [|y l]; [reflexivity|].
    cbn [List.length Nat.sub nth_error last] in *.
    rewrite Nat.sub_0_r in IH. rewrite <- (IH ltac:(lia)).
    destruct l; reflexivity. }
  rewrite Hlast. change (getitem hidden_dims 0) with (Return h0).
  repeat split.
  - discriminate.
  - unfold linear_sizes. rewrite !length_app, !length_map, !length_seq.
    cbn [List.length app]. rewrite ?length_app, ?length_rev. cbn [List.length].
    lia.
  - cbn [app]. rewrite width_after_linear_sizes.
    assert (Hl : last hidden_dims input_dim = last hidden_dims h0)
      by (unfold hidden_dims; now rewrite !last_cons).
    rewrite Hl. cbn [width_after]. rewrite Z.eqb_refl.
    rewrite width_after_linear_sizes.
    assert (Hrev : last (rev hidden_dims) latent_dim = h0).
    { unfold hidden_dims. cbn [rev]. now rewrite last_last. }
    rewrite Hrev. cbn [width_after]. now rewrite Z.eqb_refl.
Qed.

End ModelsFacts.

(** ** Python dictionaries *)

Module PyDictFacts.
Import PyDict.

Section Values.

Variable V : Type.

Lemma dict_get_set (d : list (Z * V)) (key : Z) (value : V) (k : Z) :
  dict_get (dict_set d key value) k
  = if (key =? k)%Z then Some value else dict_get d k.
Proof.
  induction d as [|[k0 v0] d IH]; cbn [dict_set dict_get].
  - reflexivity.
  - destruct (Z.eqb_spec k0 key) as [->|Hne]; cbn [dict_get].
    + destruct (Z.eqb_spec key k); reflexivity.
    + rewrite IH. destruct (Z.eqb_spec k0 k) as [->|]; [|reflexivity].
      destruct (Z.eqb_spec key k); [congruence | reflexivity].
Qed.

Lemma fold_dict_set_other (items : list (Z * V)) (k : Z) : forall d,
  ~ In k (map fst items) ->
  dict_get (fold_left (fun d item => dict_set d (fst item) (snd item)) items d) k
  = dict_get d k.
Proof.
  induction items as [|[k1 v1] items IH]; intros d Hn; [reflexivity|].
  cbn [fold_left fst snd]. rewrite IH.
  - rewrite dict_get_set. destruct (Z.eqb_spec k1 k) as [->|]; [|reflexivity].
    contradiction Hn. now left.
  - intros H. apply Hn. now right.
Qed.

Lemma fold_dict_set_get (items : list (Z * V)) : forall d k,
  In k (map fst items) ->
  exists v,
    dict_get (fold_left (fun d item => dict_set d (fst item) (snd item)) items d) k
    = Some v /\ In (k, v) items.
Proof.
  induction items as [|[k0 v0] items IH]; intros d k Hin; [contradiction|].
  cbn [fold_left fst snd].
  destruct (in_dec Z.eq_dec k (map fst items)) as [Hlater|Hnot].
  - destruct (IH (dict_set d k0 v0) k Hlater) as (v & Hget & Hv).
    exists v. split; [exact Hget | now right].
  - destruct Hin as [Hk|Hin]; [|contradiction]. cbn [fst] in Hk. subst k0.
    exists v0. split; [|now left].
    rewrite (fold_dict_set_other _ _ _ Hnot), dict_get_set. now rewrite Z.eqb_refl.
Qed.

(** A key of the items is in the dict, with a value it has in the items;
    any other key is not. *)
Lemma dict_of_items_get (items : list (Z * V)) (k : Z) :
  In k (map fst items) ->
  exists v, dict_get (dict_of_items items) k = Some v /\ In (k, v) items.
Proof. apply fold_dict_set_get. Qed.

Lemma dict_of_items_missing (items : list (Z * V)) (k : Z) :
  ~ In k (map fst items) -> dict_get (dict_of_items items) k = None.
Proof. intros H. unfold dict_of_items. now rewrite fold_dict_set_other. Qed.

End Values.

End PyDictFacts.

(** ** Choosing the genes of the scatter plot *)

Module ScatterPlotFacts.
Import Raising PyDict PyDictFacts ScatterPlot.

Section Colors.

Variable color : Type.
Variable Dark2 : nat -> color.

Lemma contains_In (gene_indices : list Z) (gene_idx : Z) :
  contains gene_indices gene_idx = true <-> In gene_idx gene_indices.
Proof.
  unfold contains. rewrite existsb_exists. split.
  - intros (x & Hin & Hx). apply Z.eqb_eq in Hx. now subst.
  - intros Hin. exists gene_idx. split; [exact Hin | apply Z.eqb_refl].
Qed.

(** The loop appends to the chosen genes, in order, the highlighted genes
    that are not there yet. *)
Lemma add_highlights_spec (highlights : list Z) : forall chosen,
  exists added,
    add_highlights chosen (Some highlights) = (chosen ++ added)%list /\
    (forall g, In g added -> In g highlights /\ ~ In g chosen) /\
    (forall g, In g highlights -> In g (chosen ++ added)) /\
    NoDup added.
Proof.
  induction highlights as [|h highlights IH]; intros chosen; cbn [add_highlights fold_left].
  - exists []. rewrite app_nil_r. repeat split; try contradiction. constructor.
  - destruct (contains chosen h) eqn:E.
    + destruct (IH chosen) as (added & Heq & Hnew & Hall & Hnd).
      cbn [add_highlights] in Heq. exists added. repeat split; try assumption.
      * right. now apply Hnew.
      * now apply Hnew.
      * intros g [<-|Hg]; [|now apply Hall].
        apply in_or_app. left. now apply contains_In.
    + assert (Hnot : ~ In h chosen).
      { intros Hin. apply contains_In in Hin. congruence. }
      destruct (IH (chosen ++ [h])%list) as (added & Heq & Hnew & Hall & Hnd).
      cbn [add_highlights] in Heq. exists (h :: added).
      rewrite Heq, <- app_assoc. repeat split.
      * destruct H as [<-|Hg]; [now left | right; now apply Hnew].
      * destruct H as [<-|Hg]; [exact Hnot|].
        intros Hc. apply (proj2 (Hnew g Hg)). apply in_or_app. now left.
      * intros g Hg. rewrite <- app_assoc in Hall. cbn [app] in Hall.
        destruct Hg as [<-|Hg]; [|now apply Hall].
        apply in_or_app. right. now left.
      * constructor; [|exact Hnd].
        intros Hin. apply (proj2 (Hnew h Hin)). apply in_or_app. right. now left.
Qed.

(** X18: the plan of the scatter plot.  Without highlighted genes
    ([highlight_gene_indices] left at [None]) it raises a [TypeError].
    With highlighted genes it returns the chosen genes followed by the
    highlighted genes that were not chosen, each of those once; every
    highlighted gene is among the genes to plot and has a colour, one of
    [Dark2]'s colours for the positions of the highlighted genes. *)
Theorem plan_spec (chosen : list Z) (highlight_gene_indices : option (list Z)) :
  match highlight_gene_indices with
  | None => plan color Dark2 chosen None = Throw TypeError
  | Some highlights =>
      exists added colors,
        plan color Dark2 chosen (Some highlights) = Return ((chosen ++ added)%list, colors) /\
        NoDup added /\
        (forall g, In g added <-> In g highlights /\ ~ In g chosen) /\
        (forall g, In g highlights ->
           In g (chosen ++ added) /\
           exists i, (i < List.length highlights)%nat /\
                     nth_error highlights i = Some g /\
                     dict_get colors g = Some (Dark2 i))
  end.
Proof.
  destruct highlight_gene_indices as [highlights|]; [|reflexivity].
  destruct (add_highlights_spec highlights chosen) as (added & Heq & Hnew & Hall & Hnd).
  unfold plan. rewrite Heq. cbn [highlighted_gene_colors].
  eexists added, _. split; [reflexivity|]. split; [exact Hnd|]. split.
  - intros g. split; [apply Hnew|]. intros [Hg Hnot].
    specialize (Hall g Hg). apply in_app_or in Hall as [Hc|Ha]; [contradiction | exact Ha].
  - intros g Hg. split; [now apply Hall|].
    set (items := combine highlights (map Dark2 (seq 0 (List.length highlights)))).
    assert (Hkeys : map fst items = highlights).
    { unfold items. clear. generalize 0%nat.
      induction highlights as [|h l IH]; intros n; [reflexivity|].
      cbn [List.length seq map combine fst]. now rewrite IH. }
    destruct (dict_of_items_get color items g) as (v & Hget & Hv);
      [now rewrite Hkeys|].
    apply In_nth_error in Hv as [i Hi].
    assert (Hnth : forall l n j,
               nth_error (combine l (map Dark2 (seq n (List.length l)))) j = Some (g, v) ->
               nth_error l j = Some g /\ v = Dark2 (n + j) /\ (j < List.length l)%nat).
    { clear. induction l as [|h l IH]; intros n j H; [now destruct j|].
      cbn [List.length seq map combine] in H. destruct j as [|j]; cbn [nth_error] in *.
      - injection H as -> <-. rewrite Nat.add_0_r. repeat split; cbn; lia.
      - apply IH in H as (H1 & H2 & H3). rewrite H2.
        repeat split; [exact H1 | f_equal; lia | cbn; lia]. }
    apply Hnth in Hi as (H1 & H2 & H3). cbn [Nat.add] in H2. subst v.
    exists i. repeat split; assumption.
Qed.

End Colors.

End ScatterPlotFacts.

(** ** Filtering the response table *)

Module DataProcessorFacts.
Import PyDict PyDictFacts DataProcessor.
Local Open Scope string_scope.

Lemma existsb_eqb_In (x : Z) (l : list Z) : existsb (Z.eqb x) l = true <-> In x l.
Proof.
  rewrite existsb_exists. split.
  - intros (y & Hin & Hy). apply Z.eqb_eq in Hy. now subst.
  - intros Hin. exists x. split; [exact Hin | apply Z.eqb_refl].
Qed.

Lemma unique_from (values : list Z) : forall seen,
  NoDup seen ->
  let result := fold_left (fun seen v => if existsb (Z.eqb v) seen then seen
                                         else (seen ++ [v])%list) values seen in
  NoDup result /\ forall x, In x result <-> In x seen \/ In x values.
Proof.
  induction values as [|v values IH]; intros seen Hnd; cbn [fold_left].
  - split; [exact Hnd | intros x; cbn [In]; tauto].
  - destruct (existsb (Z.eqb v) seen) eqn:E.
    + destruct (IH seen Hnd) as [H1 H2]. split; [exact H1|].
      intros x. rewrite H2. apply existsb_eqb_In in E. cbn [In].
      intuition (subst; auto).
    + assert (Hv : ~ In v seen).
      { intros Hin. apply existsb_eqb_In in Hin. congruence. }
      assert (Hnd' : NoDup (seen ++ [v])).
      { apply NoDup_app; [exact Hnd | repeat constructor; intros [] |].
        intros x Hx [<-|[]]. now apply Hv. }
      destruct (IH _ Hnd') as [H1 H2]. split; [exact H1|].
      intros x. rewrite H2, in_app_iff. cbn [In]. tauto.
Qed.

(** [unique] keeps every value, once. *)
Lemma unique_spec (values : list Z) :
  NoDup (unique values) /\ forall x, In x (unique values) <-> In x values.
Proof.
  destruct (unique_from values [] (NoDup_nil Z)) as [H1 H2].
  split; [exact H1|]. intros x. unfold unique. rewrite H2. cbn [In]. tauto.
Qed.

Section Tables.

Variable ic50_df : list ic50_row.
Variable ccl_df : list (string * list float).
Variable smiles_df : list smiles_row.

Lemma cell_lines_from (ids : list Z) : forall acc,
  fold_left (cell_line_step ccl_df) ids acc
  = ((fst acc ++ map (entry_of ccl_df) ids)%list,
     (snd acc ++ filter (fun id => is_NA (entry_of ccl_df id)) ids)%list).
Proof.
  induction ids as [|id ids IH]; intros [vals nas]; cbn [fold_left map filter fst snd].
  - now rewrite !app_nil_r.
  - rewrite IH. unfold cell_line_step, entry_of. cbn [fst snd].
    destruct (column ccl_df ("DATA." ++ str id)); cbn [fst snd is_NA];
      now rewrite <- !app_assoc.
Qed.

Lemma drug_lookup_from (ids : list Z) : forall acc,
  fold_left (drug_step smiles_df) ids acc
  = ((fst acc ++ map (smiles_of smiles_df) ids)%list,
     (snd acc ++ filter (fun id => match matching smiles_df id with
                                   | [] => true | _ => false end) ids)%list).
Proof.
  induction ids as [|id ids IH]; intros [vals nas]; cbn [fold_left map filter fst snd].
  - now rewrite !app_nil_r.
  - rewrite IH. unfold drug_step, smiles_of. cbn [fst snd].
    destruct (matching smiles_df id); cbn [fst snd]; now rewrite <- !app_assoc.
Qed.

Lemma zip_map_get {V : Type} (f : Z -> V) (keys : list Z) (k : Z) :
  In k keys ->
  dict_get (dict_of_items (combine keys (map f keys))) k = Some (f k).
Proof.
  intros Hin.
  assert (Hkeys : map fst (combine keys (map f keys)) = keys).
  { clear. induction keys as [|x l IH]; [reflexivity|].
    cbn [map combine fst]. now rewrite IH. }
  destruct (dict_of_items_get V (combine keys (map f keys)) k) as (v & Hget & Hv);
    [now rewrite Hkeys|].
  rewrite Hget. f_equal.
  clear - Hv. induction keys as [|x l IH]; [contradiction|].
  cbn [map combine] in Hv. destruct Hv as [Hv|Hv]; [now injection Hv as -> <- | now apply IH].
Qed.

(** X19: what is left of the response table.  A row of [ic50_df] is kept
    exactly when the expression table has the column of its cell line and
    the drug table has a row for its drug; and for every row that is kept,
    [ccl_dict] holds the values of that column under the row's cell line, and
    [smiles_dict] holds the SMILES string of the first matching row of the
    drug table under the row's drug. *)
Theorem ic50_df_filtered_complete (row : ic50_row) :
  (In row (ic50_df_filtered ic50_df ccl_df smiles_df) <->
   In row ic50_df /\
   column ccl_df ("DATA." ++ str (COSMIC_ID row)) <> None /\
   matching smiles_df (DRUG_ID row) <> []) /\
  (In row (ic50_df_filtered ic50_df ccl_df smiles_df) ->
   exists values first others,
     column ccl_df ("DATA." ++ str (COSMIC_ID row)) = Some values /\
     dict_get (ccl_dict ic50_df ccl_df) (COSMIC_ID row) = Some (Values values) /\
     matching smiles_df (DRUG_ID row) = first :: others /\
     dict_get (smiles_dict ic50_df smiles_df) (DRUG_ID row) = Some (smiles first)).
Proof.
  assert (Hcells : cell_lines ic50_df ccl_df
                   = (map (entry_of ccl_df) (ccl ic50_df),
                      filter (fun id => is_NA (entry_of ccl_df id)) (ccl ic50_df))).
  { unfold cell_lines. now rewrite cell_lines_from. }
  assert (Hdrugs : drug_lookup ic50_df smiles_df
                   = (map (smiles_of smiles_df) (drugs ic50_df),
                      filter (fun id => match matching smiles_df id with
                                        | [] => true | _ => false end) (drugs ic50_df))).
  { unfold drug_lookup. now rewrite drug_lookup_from. }
  assert (Hkept : In row (ic50_df_filtered ic50_df ccl_df smiles_df) <->
                  In row ic50_df /\
                  column ccl_df ("DATA." ++ str (COSMIC_ID row)) <> None /\
                  matching smiles_df (DRUG_ID row) <> []).
  { unfold ic50_df_filtered, na_cosmic_ids, na_drug_ids. rewrite Hcells, Hdrugs.
    cbn [snd]. rewrite !filter_In, !negb_true_iff.
    split.
    - intros [[Hin Hc] Hd]. split; [exact Hin|]. split.
      + intros Hnone. apply not_true_iff_false in Hc. apply Hc.
        apply existsb_eqb_In, filter_In. split.
        * apply unique_spec, in_map, Hin.
        * unfold entry_of. now rewrite Hnone.
      + intros Hnone. apply not_true_iff_false in Hd. apply Hd.
        apply existsb_eqb_In, filter_In. split.
        * apply unique_spec, in_map, Hin.
        * now rewrite Hnone.
    - intros (Hin & Hc & Hd). repeat split; try exact Hin.
      + apply not_true_iff_false. intros H.
        apply existsb_eqb_In, filter_In in H as [_ H]. unfold entry_of in H.
        destruct (column ccl_df ("DATA." ++ str (COSMIC_ID row))); [discriminate | now apply Hc].
      + apply not_true_iff_false. intros H.
        apply existsb_eqb_In, filter_In in H as [_ H].
        destruct (matching smiles_df (DRUG_ID row)); [now apply Hd | discriminate]. }
  split; [exact Hkept|].
  intros Hrow. apply Hkept in Hrow as (Hin & Hc & Hd).
  destruct (column ccl_df ("DATA." ++ str (COSMIC_ID row))) as [values|] eqn:Ec;
    [|now contradiction Hc].
  destruct (matching smiles_df (DRUG_ID row)) as [|first others] eqn:Ed;
    [now contradiction Hd|].
  exists values, first, others. repeat split.
  - unfold ccl_dict, ccl_values. rewrite Hcells. cbn [fst].
    rewrite zip_map_get by (apply unique_spec, in_map, Hin).
    unfold entry_of. now rewrite Ec.
  - unfold smiles_dict, drugs_values. rewrite Hdrugs. cbn [fst].
    rewrite zip_map_get by (apply unique_spec, in_map, Hin).
    unfold smiles_of. now rewrite Ed.
Qed.

(** X20: the counts that the notebook prints.  [ccl_values] has one
    element per cell line of [ccl], [na_count] is the number of cell lines
    without a column, which are the ids in [na_cosmic_ids], each of them
    once; [drugs_values] has one element per drug, and the drugs without a
    row in the drug table are the ids in [na_drug_ids]. *)
Theorem cell_line_counts :
  List.length (ccl_values ic50_df ccl_df) = List.length (ccl ic50_df) /\
  na_count ic50_df ccl_df = List.length (na_cosmic_ids ic50_df ccl_df) /\
  NoDup (na_cosmic_ids ic50_df ccl_df) /\
  (forall id, In id (na_cosmic_ids ic50_df ccl_df) <->
              In id (map COSMIC_ID ic50_df) /\ column ccl_df ("DATA." ++ str id) = None) /\
  List.length (drugs_values ic50_df smiles_df) = List.length (drugs ic50_df) /\
  (forall id, In id (na_drug_ids ic50_df smiles_df) <->
              In id (map DRUG_ID ic50_df) /\ matching smiles_df id = []).
Proof.
  unfold na_count, ccl_values, na_cosmic_ids, drugs_values, na_drug_ids,
    cell_lines, drug_lookup.
  rewrite cell_lines_from, drug_lookup_from. cbn [fst snd app].
  rewrite !length_map.
  split; [reflexivity|]. split; [|split; [|split; [|split; [reflexivity|]]]].
  - induction (ccl ic50_df) as [|id ids IH]; [reflexivity|].
    cbn [map filter]. destruct (is_NA (entry_of ccl_df id)); cbn [List.length]; now rewrite IH.
  - apply NoDup_filter, unique_spec.
  - intros id. rewrite filter_In. unfold ccl.
    rewrite (proj2 (unique_spec (map COSMIC_ID ic50_df)) id). unfold entry_of.
    destruct (column ccl_df ("DATA." ++ str id)); cbn [is_NA];
      intuition (discriminate || auto).
  - intros id. rewrite filter_In. unfold drugs.
    rewrite (proj2 (unique_spec (map DRUG_ID ic50_df)) id).
    destruct (matching smiles_df id); intuition (discriminate || auto).
Qed.

End Tables.

End DataProcessorFacts.

(** ** The training function of the SMILES model *)

Module TrainingFacts.
Import Exn Vocab Tokenizer Criterion Training.

Section TrainModel.

Variable custom_tokens : list string.
Variable vocab_tokens : list string.
Variable max_len : Z.
Variable position_loss : list float -> Z -> float.
Variable weights : Type.
Variable forward_train : weights -> list Z -> list (list float).
Variable forward_eval : weights -> list Z -> list (list float).
Variable optimizer_step : weights -> list Z -> weights.

(** The model returns one row of logits per position. *)
Hypothesis forward_train_rows :
  forall w input_seq, List.length (forward_train w input_seq) = List.length input_seq.
Hypothesis forward_eval_rows :
  forall w input_seq, List.length (forward_eval w input_seq) = List.length input_seq.

Lemma criterion_returns (input : list (list float)) (target : list Z) :
  List.length input = List.length target ->
  exists loss, criterion position_loss vocab_tokens input target = Ok loss.
Proof.
  intros H. unfold criterion, CrossEntropyLoss. rewrite H, Nat.eqb_refl.
  eexists. reflexivity.
Qed.

Lemma train_pass_returns (train_smiles_list : list string) : forall w acc,
  exists loss,
    train_pass custom_tokens vocab_tokens max_len position_loss weights
      forward_train optimizer_step w train_smiles_list acc
    = Ok (steps custom_tokens vocab_tokens max_len weights optimizer_step
            w train_smiles_list, loss).
Proof.
  induction train_smiles_list as [|smiles rest IH]; intros w acc; cbn [train_pass].
  - exists acc. reflexivity.
  - destruct (criterion_returns
                (forward_train w (smiles_to_padded_tensor custom_tokens vocab_tokens max_len smiles))
                (smiles_to_padded_tensor custom_tokens vocab_tokens max_len smiles)
                (forward_train_rows _ _)) as [loss ->].
    cbn [bind]. apply IH.
Qed.

Lemma val_pass_returns (val_smiles_list : list string) : forall w acc,
  exists loss,
    val_pass custom_tokens vocab_tokens max_len position_loss weights
      forward_eval w val_smiles_list acc = Ok loss.
Proof.
  induction val_smiles_list as [|smiles rest IH]; intros w acc; cbn [val_pass].
  - exists acc. reflexivity.
  - destruct (criterion_returns
                (forward_eval w (smiles_to_padded_tensor custom_tokens vocab_tokens max_len smiles))
                (smiles_to_padded_tensor custom_tokens vocab_tokens max_len smiles)
                (forward_eval_rows _ _)) as [loss ->].
    cbn [bind]. apply IH.
Qed.

Lemma epoch_body_cases (train_smiles_list val_smiles_list : list string)
    (w : weights) (epoch : Z) :
  epoch_body custom_tokens vocab_tokens max_len position_loss weights
    forward_train forward_eval optimizer_step train_smiles_list val_smiles_list w epoch
  = match train_smiles_list, val_smiles_list with
    | _ :: _, _ :: _ =>
        epoch_body custom_tokens vocab_tokens max_len position_loss weights
          forward_train forward_eval optimizer_step train_smiles_list val_smiles_list w epoch
    | _, _ => Raise ZeroDivisionError
    end /\
  (train_smiles_list <> [] -> val_smiles_list <> [] ->
   exists training_loss validation_loss,
     epoch_body custom_tokens vocab_tokens max_len position_loss weights
       forward_train forward_eval optimizer_step train_smiles_list val_smiles_list w epoch
     = Ok (steps custom_tokens vocab_tokens max_len weights optimizer_step
             w train_smiles_list,
           ((epoch + 1)%Z, training_loss, validation_loss))).
Proof.
  unfold epoch_body.
  destruct (train_pass_returns train_smiles_list w 0%float) as [tl ->].
  cbn [bind fst snd].
  destruct (val_pass_returns val_smiles_list
              (steps custom_tokens vocab_tokens max_len weights optimizer_step
                 w train_smiles_list) 0%float) as [vl ->].
  cbn [bind]. unfold truediv_len.
  destruct train_smiles_list as [|t train]; cbn [List.length Nat.eqb bind].
  - split; [reflexivity | intros H; now contradiction H].
  - destruct val_smiles_list as [|v val]; cbn [List.length Nat.eqb bind].
    + split; [reflexivity | intros _ H; now contradiction H].
    + split; [reflexivity|]. intros _ _. do 2 eexists. reflexivity.
Qed.

Lemma epochs_from_returns (train_smiles_list val_smiles_list : list string) :
  train_smiles_list <> [] -> val_smiles_list <> [] ->
  forall remaining epoch w printed,
  exists more,
    epochs_from custom_tokens vocab_tokens max_len position_loss weights
      forward_train forward_eval optimizer_step train_smiles_list val_smiles_list
      remaining epoch w printed
    = Ok (Nat.iter remaining
            (fun w => steps custom_tokens vocab_tokens max_len weights optimizer_step
                        w train_smiles_list) w,
          (printed ++ more)%list) /\
    map (fun line => fst (fst line)) more
    = map (fun i => (epoch + Z.of_nat i)%Z) (seq 1 remaining).
Proof.
  intros Ht Hv. induction remaining as [|remaining IH]; intros epoch w printed.
  - exists []. rewrite app_nil_r. split; reflexivity.
  - cbn [epochs_from].
    destruct (proj2 (epoch_body_cases train_smiles_list val_smiles_list w epoch) Ht Hv)
      as (tl & vl & ->).
    cbn [bind fst snd].
    destruct (IH (epoch + 1)%Z
                (steps custom_tokens vocab_tokens max_len weights optimizer_step
                   w train_smiles_list)
                (printed ++ [((epoch + 1)%Z, tl, vl)])%list) as (more & -> & Hmore).
    exists (((epoch + 1)%Z, tl, vl) :: more). split.
    + f_equal. f_equal.
      * now rewrite Nat.iter_succ_r.
      * now rewrite <- app_assoc.
    + cbn [map fst seq]. f_equal.
      rewrite Hmore, <- (seq_shift remaining 1), map_map. apply map_ext. intros i. lia.
Qed.

(** X21: [train_model] with a model that returns one row of logits per
    position.  With at least one epoch and an empty training or validation
    list it raises a [ZeroDivisionError] (in the first epoch, when the mean
    losses are printed); with both lists non-empty it returns, having printed
    one line per epoch, numbered from 1 to [num_epochs], and having made
    one optimizer step per training string in every epoch. *)
Theorem train_model_spec (w : weights) (train_smiles_list val_smiles_list : list string)
    (num_epochs : Z) :
  (1 <= num_epochs)%Z ->
  match train_smiles_list, val_smiles_list with
  | _ :: _, _ :: _ =>
      exists printed,
        train_model custom_tokens vocab_tokens max_len position_loss weights
          forward_train forward_eval optimizer_step w train_smiles_list val_smiles_list
          num_epochs
        = Ok (Nat.iter (Z.to_nat num_epochs)
                (fun w => steps custom_tokens vocab_tokens max_len weights optimizer_step
                            w train_smiles_list) w,
              printed) /\
        map (fun line => fst (fst line)) printed
        = map Z.of_nat (seq 1 (Z.to_nat num_epochs))
  | _, _ =>
      train_model custom_tokens vocab_tokens max_len position_loss weights
        forward_train forward_eval optimizer_step w train_smiles_list val_smiles_list
        num_epochs
      = Raise ZeroDivisionError
  end.
Proof.
  intros Hn. unfold train_model.
  assert (Hraise : train_smiles_list = [] \/ val_smiles_list = [] ->
            epochs_from custom_tokens vocab_tokens max_len position_loss weights
              forward_train forward_eval optimizer_step train_smiles_list val_smiles_list
              (Z.to_nat num_epochs) 0 w []
            = Raise ZeroDivisionError).
  { intros Hempty. destruct (Z.to_nat num_epochs) as [|k] eqn:E; [lia|].
    cbn [epochs_from].
    rewrite (proj1 (epoch_body_cases train_smiles_list val_smiles_list w 0)).
    destruct train_smiles_list; [reflexivity|].
    destruct val_smiles_list; [reflexivity|].
    destruct Hempty; discriminate. }
  destruct train_smiles_list as [|t train]; [apply Hraise; now left|].
  destruct val_smiles_list as [|v val]; [apply Hraise; now right|].
  destruct (epochs_from_returns (t :: train) (v :: val) ltac:(discriminate) ltac:(discriminate)
              (Z.to_nat num_epochs) 0%Z w []) as (more & Heq & Hmore).
  exists more. split; [exact Heq|]. rewrite Hmore. apply map_ext. intros i. lia.
Qed.

End TrainModel.

Lemma train_model_spec_witness :
  train_model [] [] 2 (fun row t => nth (Z.to_nat t) row 0%float) unit
    (fun _ input_seq => map (fun _ => [0; 0; 1; 0]%float) input_seq)
    (fun _ input_seq => map (fun _ => [0; 0; 1; 0]%float) input_seq)
    (fun w _ => w) tt ["C"%string] [] 2
  = Raise ZeroDivisionError.
Proof.
  apply (train_model_spec [] [] 2 (fun row t => nth (Z.to_nat t) row 0%float) unit
           (fun _ input_seq => map (fun _ => [0; 0; 1; 0]%float) input_seq)
           (fun _ input_seq => map (fun _ => [0; 0; 1; 0]%float) input_seq)
           (fun w _ => w)
           (fun _ input_seq => length_map _ input_seq)
           (fun _ input_seq => length_map _ input_seq)
           tt ["C"%string] [] 2).
  lia.
Defined.

End TrainingFacts.

(** ** More on the vocabulary *)

Module VocabMore.
Import Vocab Tokenizer TokenizerFacts.
Local Open Scope string_scope.

Lemma index_from_nth (tokens : list string) : forall (i : Z) (n : nat) (token : string),
  NoDup tokens -> nth_error tokens n = Some token ->
  index_from i token tokens = Some (i + Z.of_nat n)%Z.
Proof.
  induction tokens as [|t tokens IH]; intros i n token Hnd Hnth.
  - now destruct n.
  - apply NoDup_cons_iff in Hnd as [Ht Hnd]. cbn [index_from].
    destruct n as [|n]; cbn [nth_error] in Hnth.
    + injection Hnth as ->. rewrite String.eqb_refl. f_equal. lia.
    + destruct (String.eqb_spec t token) as [->|_].
      * contradiction Ht. eapply nth_error_In; eassumption.
      * rewrite (IH (i + 1)%Z n token Hnd Hnth). f_equal. lia.
Qed.

(** X22: in a vocabulary without repeated tokens, ids and tokens
    correspond one to one: the token of the id of a token of the vocabulary
    is that token, the id of the token of an id is that id; and a token
    outside the vocabulary gets the id 1, whose token is ["<unk>"]. *)
Theorem vocab_ids_and_tokens (vocab_tokens : list string) :
  NoDup (specials ++ vocab_tokens) ->
  let v := vocab vocab_tokens in
  (forall token, In token (itos v) -> lookup_token v (getitem v token) = Some token) /\
  (forall i token, lookup_token v i = Some token -> getitem v token = i) /\
  (forall token, ~ In token (itos v) ->
     getitem v token = 1%Z /\ lookup_token v 1 = Some "<unk>").
Proof.
  intros Hnd v. split; [|split].
  - intros token Hin.
    destruct (getitem_spec vocab_tokens token) as [[_ H]|[H _]]; [exact H | contradiction].
  - intros i token Hlook. unfold lookup_token in Hlook.
    destruct (Z.ltb_spec i 0) as [|Hi]; [discriminate|].
    unfold getitem, stoi.
    rewrite (index_from_nth (itos v) 0 (Z.to_nat i) token Hnd Hlook). lia.
  - intros token Hnot.
    destruct (getitem_spec vocab_tokens token) as [[H _]|[_ H]]; [contradiction|].
    split; [exact H | reflexivity].
Qed.

Lemma vocab_ids_and_tokens_witness :
  let v := vocab ["C"; "O"; "N"] in
  (forall token, In token (itos v) -> lookup_token v (getitem v token) = Some token) /\
  (forall i token, lookup_token v i = Some token -> getitem v token = i) /\
  (forall token, ~ In token (itos v) ->
     getitem v token = 1%Z /\ lookup_token v 1 = Some "<unk>").
Proof.
  apply (vocab_ids_and_tokens ["C"; "O"; "N"]).
  repeat constructor; simpl; intuition discriminate.
Defined.

End VocabMore.
